(** * HX711 load-cell amplifier driver for the Raspberry Pi

    A shallow embedding of [hx711-rpi.py] and the verification of its
    bit-transfer protocol, its gain / power-down state machine and its
    tare / calibrate / get-weight pipeline.

    - [Py]    : the fragment of Python's numeric tower the driver relies on
                (unbounded [int], binary64 [float], true division, [int()],
                [sorted] and [statistics.median]);
    - [GPIO]  : the two signal lines, as a log of the calls made on them and
                an oracle for the levels read on the data line;
    - [HX711] : the class itself, method by method, in a state-and-exception
                monad; the readiness loop polls at most [fuel] times;
    - [Frame] : what a conversion frame is on the lines, independently of
                the polling budget;
    - [Session] : a client making any sequence of calls, and what the log
                says about the clock line and the lock;
    - [Bench] : an instance and scripted chips to run the methods on.

    The lemmas follow: the Python fragment, the bit-transfer engine, the
    calibration pipeline, the properties of the driver (C1 to C10), and
    further properties of the methods and of whole sessions. *)

From Stdlib Require Import ZArith List Lia Bool Floats.
From Stdlib Require Import Sorting.Permutation Sorting.Sorted.
Import ListNotations.
Open Scope Z_scope.

(* ================================================================= *)
(** ** Python values *)

Module Py.

(** The exceptions the driver can raise, directly or through the standard
    library. *)
Inductive exn : Set :=
| ValueError
| ZeroDivisionError
| OverflowError
| StatisticsError.

(** A Python number is an [int] (unbounded) or a [float] (IEEE 754 binary64,
    which is what Rocq's primitive [float] is). *)
Inductive num : Set :=
| PyInt (z : Z)
| PyFloat (f : float).

(** Result of evaluating a pure Python expression: an exception or a value. *)
Definition res (A : Type) : Type := exn + A.

Definition rbind {A B} (r : res A) (k : A -> res B) : res B :=
  match r with
  | inl e => inl e
  | inr a => k a
  end.

(** The binary64 nearest (ties to even) to an integer. *)
Definition Z2float (z : Z) : float :=
  SF2Prim (binary_normalize prec emax z 0 false).

(** Integers at or above [2^1024 - 2^970] in magnitude round to infinity. *)
Definition float_max_int : Z := 2 ^ 1024 - 2 ^ 970.

(** [float(z)] for an [int]: [OverflowError] when [z] is too large. *)
Definition float_of_int (z : Z) : res float :=
  if Z.abs z <? float_max_int then inr (Z2float z) else inl OverflowError.

(** Implicit conversion of an operand of a mixed-mode operation. *)
Definition as_float (x : num) : res float :=
  match x with
  | PyInt z => float_of_int z
  | PyFloat f => inr f
  end.

(** An [int] that fits the 53-bit significand. *)
Definition small (z : Z) : bool := Z.abs z <? 2 ^ 53.

(** The correctly rounded quotient of two integers, [b <> 0]: the quotient is
    computed with at least 55 significant bits, the remainder is folded into
    a sticky last bit, and the whole is rounded to nearest-even once. *)
Definition round_quotient (a b : Z) : spec_float :=
  let neg := xorb (a <? 0) (b <? 0) in
  let n := Z.abs a in
  let d := Z.abs b in
  let k := Z.max 0 (56 + Z.log2 d - Z.log2 n) in
  let q := (n * 2 ^ k) / d in
  let r := (n * 2 ^ k) mod d in
  let m := 2 * q + (if r =? 0 then 0 else 1) in
  binary_normalize prec emax (if neg then - m else m) (- k - 1) neg.

(** [a / b] on two [int]s ([long_true_divide]): both fitting 53 bits, the
    quotient of the two doubles; otherwise the correctly rounded quotient,
    [OverflowError] when it is beyond the largest double. *)
Definition int_truediv (a b : Z) : res float :=
  if b =? 0 then inl ZeroDivisionError
  else if small a && small b then inr (Z2float a / Z2float b)%float
  else match round_quotient a b with
       | S754_infinity _ => inl OverflowError
       | q => inr (SF2Prim q)
       end.

(** [x / y] on two [float]s ([float_div]): a zero divisor, of either sign,
    raises; everything else is IEEE division (and may be infinite or NaN). *)
Definition float_truediv (x y : float) : res float :=
  if (y =? 0)%float then inl ZeroDivisionError else inr (x / y)%float.

(** Python's [/]. *)
Definition truediv (x y : num) : res float :=
  match x, y with
  | PyInt a, PyInt b => int_truediv a b
  | _, _ =>
      rbind (as_float x) (fun fx =>
      rbind (as_float y) (fun fy => float_truediv fx fy))
  end.

(** [x - y] on two [int]s. *)
Definition int_sub (x y : Z) : Z := x - y.

(** [int(f)] for a [float]: truncation toward zero. *)
Definition int_of_float (f : float) : res Z :=
  match Prim2SF f with
  | S754_nan => inl ValueError
  | S754_infinity _ => inl OverflowError
  | S754_zero _ => inr 0
  | S754_finite s m e =>
      let a := if 0 <=? e then Z.pos m * 2 ^ e else Z.pos m / 2 ^ (- e) in
      inr (if s then - a else a)
  end.

(** Python's [int(x)]. *)
Definition int (x : num) : res Z :=
  match x with
  | PyInt z => inr z
  | PyFloat f => int_of_float f
  end.

(** [x == 0] for a number. *)
Definition is_zero (x : num) : bool :=
  match x with
  | PyInt z => z =? 0
  | PyFloat f => (f =? 0)%float
  end.

(** [sorted] on a list of [int]s. *)
Fixpoint insert (x : Z) (l : list Z) : list Z :=
  match l with
  | [] => [x]
  | y :: l' => if x <=? y then x :: l else y :: insert x l'
  end.

Definition sorted (l : list Z) : list Z := fold_right insert [] l.

(** [statistics.median]:
<<
    data = sorted(data); n = len(data)
    if n == 0: raise StatisticsError("no median for empty data")
    if n % 2 == 1: return data[n // 2]
    i = n // 2
    return (data[i - 1] + data[i]) / 2
>> *)
Definition median (data : list Z) : res num :=
  let data := sorted data in
  let n := length data in
  if Nat.eqb n 0 then inl StatisticsError
  else if Nat.eqb (n mod 2) 1 then inr (PyInt (nth (n / 2) data 0))
  else
    let i := (n / 2)%nat in
    rbind (int_truediv (nth (i - 1) data 0 + nth i data 0) 2)
          (fun f => inr (PyFloat f)).

(** *** The same, in terms of integers

    What [int(median(data))] is meant to be: the middle element of the
    sorted data, or the mean of the two middle elements truncated toward
    zero. *)
Definition int_median (data : list Z) : Z :=
  let data := sorted data in
  let n := length data in
  if Nat.odd n then nth (n / 2) data 0
  else Z.quot (nth (n / 2 - 1) data 0 + nth (n / 2) data 0) 2.

(** The double a number stands for in a division, when it has one. *)
Definition to_float (x : num) : float :=
  match x with
  | PyInt z => Z2float z
  | PyFloat f => f
  end.

(** Numbers whose conversion to [float] is exact: every [float], and the
    [int]s below [2^52] in magnitude. *)
Definition moderate (x : num) : Prop :=
  match x with
  | PyInt z => Z.abs z < 2 ^ 52
  | PyFloat _ => True
  end.

End Py.

(* ================================================================= *)
(** ** The signal lines *)

Module GPIO.

(** [GPIO.LOW = 0], [GPIO.HIGH = 1]. *)
Inductive level : Set := LOW | HIGH.

Definition bit (l : level) : Z :=
  match l with LOW => 0 | HIGH => 1 end.

Definition level_eqb (a b : level) : bool :=
  match a, b with
  | LOW, LOW | HIGH, HIGH => true
  | _, _ => false
  end.

(** What the driver does to the outside, in program order: the [RPi.GPIO]
    calls, [time.sleep] (in microseconds) and the acquisitions and releases
    of the instance's lock. *)
Inductive event : Set :=
| Setmode_BCM
| Setup_in (pin : Z)
| Setup_out (pin : Z) (initial : level)
| Output (pin : Z) (l : level)
| Input (pin : Z) (l : level)
| Sleep (us : Z)
| Acquire
| Release
| Cleanup (pins : list Z).

(** The outside: [line i] is the level the [i]-th call of [GPIO.input]
    finds on the data line, [reads] counts the calls made so far and [trace]
    logs the events. *)
Record world : Type := mkWorld {
  line : nat -> level;
  reads : nat;
  trace : list event
}.

Definition log (es : list event) (w : world) : world :=
  mkWorld (line w) (reads w) (trace w ++ es).

Definition sample (pin : Z) (w : world) : level * world :=
  let l := line w (reads w) in
  (l, mkWorld (line w) (S (reads w)) (trace w ++ [Input pin l])).

(** A data line that plays a fixed list of levels and then stays low. *)
Definition script (ls : list level) : nat -> level :=
  fun i => nth i ls LOW.

(** The [n] low bits of [p], most significant first, as levels. *)
Fixpoint bits_msb (n : nat) (p : Z) : list level :=
  match n with
  | O => []
  | S n' => (if Z.testbit p (Z.of_nat n') then HIGH else LOW) :: bits_msb n' p
  end.

(** What a chip that is ready at once puts on the line for one conversion
    whose 24-bit pattern is [p]. *)
Definition frame_levels (p : Z) : list level := LOW :: bits_msb 24 p.

End GPIO.

(* ================================================================= *)
(** ** The driver *)

Module HX711.
Import Py GPIO.

(** The attributes of an instance. *)
Record obj : Type := mkObj {
  dt : Z;
  sck : Z;
  _gain : Z;
  offset : Z;
  scale : num;
  _power_down : bool
}.

Definition set_dt (v : Z) (h : obj) : obj :=
  mkObj v (sck h) (_gain h) (offset h) (scale h) (_power_down h).
Definition set_sck (v : Z) (h : obj) : obj :=
  mkObj (dt h) v (_gain h) (offset h) (scale h) (_power_down h).
Definition set_gain (v : Z) (h : obj) : obj :=
  mkObj (dt h) (sck h) v (offset h) (scale h) (_power_down h).
Definition set_offset (v : Z) (h : obj) : obj :=
  mkObj (dt h) (sck h) (_gain h) v (scale h) (_power_down h).
Definition set_scale (v : num) (h : obj) : obj :=
  mkObj (dt h) (sck h) (_gain h) (offset h) v (_power_down h).
Definition set_power_down (v : bool) (h : obj) : obj :=
  mkObj (dt h) (sck h) (_gain h) (offset h) (scale h) v.

Definition state : Type := obj * world.

(** How a call ends: it returns, it raises, or it is still polling the data
    line when the polls allowed to the model are used up. *)
Inductive outcome (A : Type) : Type :=
| Ok (a : A)
| Raise (e : exn)
| Blocked.
Arguments Ok {A} a.
Arguments Raise {A} e.
Arguments Blocked {A}.

Definition M (A : Type) : Type := state -> outcome A * state.

Definition ret {A} (a : A) : M A := fun s => (Ok a, s).

Definition bind {A B} (m : M A) (k : A -> M B) : M B :=
  fun s =>
    match m s with
    | (Ok a, s') => k a s'
    | (Raise e, s') => (Raise e, s')
    | (Blocked, s') => (Blocked, s')
    end.

Notation "x <- m ;; k" := (bind m (fun x => k))
  (at level 61, m at next level, right associativity).
Notation "m ;; k" := (bind m (fun _ => k))
  (at level 61, right associativity).

Definition raise {A} (e : exn) : M A := fun s => (Raise e, s).
Definition blocked {A} : M A := fun s => (Blocked, s).

(** Evaluation of a pure Python expression inside a method. *)
Definition py {A} (r : res A) : M A :=
  match r with
  | inl e => raise e
  | inr a => ret a
  end.

Definition attr {A} (f : obj -> A) : M A := fun s => (Ok (f (fst s)), s).
Definition assign (f : obj -> obj) : M unit :=
  fun s => (Ok tt, (f (fst s), snd s)).
Definition emit (e : event) : M unit :=
  fun s => (Ok tt, (fst s, log [e] (snd s))).

Definition gpio_output (pin : Z) (l : level) : M unit := emit (Output pin l).
Definition gpio_input (pin : Z) : M level :=
  fun s => let (l, w) := sample pin (snd s) in (Ok l, (fst s, w)).
Definition sleep (us : Z) : M unit := emit (Sleep us).

(** [with self._lock: body]: the lock is released when the body returns and
    when it raises. *)
Definition with_lock {A} (body : M A) : M A :=
  fun s =>
    match body (fst s, log [Acquire] (snd s)) with
    | (Blocked, s') => (Blocked, s')
    | (r, s') => (r, (fst s', log [Release] (snd s')))
    end.

(** [[body for _ in range(n)]] *)
Fixpoint comprehension {A} (n : nat) (body : M A) : M (list A) :=
  match n with
  | O => ret []
  | S n' => x <- body ;; xs <- comprehension n' body ;; ret (x :: xs)
  end.

(** [for _ in range(n): body] *)
Fixpoint for_range (n : nat) (body : M unit) : M unit :=
  match n with
  | O => ret tt
  | S n' => body ;; for_range n' body
  end.

Definition _is_ready : M bool :=
  pin <- attr dt ;;
  l <- gpio_input pin ;;
  ret (level_eqb l LOW).

(** [while not self._is_ready(): sleep(0.01)], with at most [fuel] polls. *)
Fixpoint wait_ready (fuel : nat) : M unit :=
  match fuel with
  | O => blocked
  | S fuel' =>
      r <- _is_ready ;;
      if r then ret tt else sleep 10000 ;; wait_ready fuel'
  end.

Definition clock_pulse : M unit :=
  pin <- attr sck ;;
  gpio_output pin HIGH ;;
  gpio_output pin LOW.

(** The body of the 24-bit loop, threaded through the running [value]. *)
Fixpoint read_bits (n : nat) (value : Z) : M Z :=
  match n with
  | O => ret value
  | S n' =>
      clock_pulse ;;
      pin <- attr dt ;;
      l <- gpio_input pin ;;
      read_bits n' (Z.lor (Z.shiftl value 1) (bit l))
  end.

Definition gain_pulses (g : Z) : nat :=
  if g =? 64 then 3%nat
  else if g =? 32 then 2%nat
  else 1%nat.

(** [-(value & 0x800000) + (value & 0x7fffff)] *)
Definition twos_complement (value : Z) : Z :=
  - (Z.land value 0x800000) + Z.land value 0x7fffff.

Definition _read_raw (fuel : nat) : M Z :=
  wait_ready fuel ;;
  value <- read_bits 24 0 ;;
  g <- attr _gain ;;
  for_range (gain_pulses g) clock_pulse ;;
  ret (twos_complement value).

(** The setter of the [power_down] property. *)
Definition power_down_setter (fuel : nat) (value : bool) : M unit :=
  cur <- attr _power_down ;;
  if Bool.eqb value cur then ret tt
  else
    pin <- attr sck ;;
    (if value
     then with_lock (gpio_output pin LOW ;; gpio_output pin HIGH ;; sleep 60)
     else with_lock (gpio_output pin LOW ;; _read_raw fuel ;; ret tt)) ;;
    assign (set_power_down value).

(** [if self._power_down: self.power_down = False] *)
Definition auto_wake (fuel : nat) : M unit :=
  pd <- attr _power_down ;;
  if pd then power_down_setter fuel false else ret tt.

Definition tare (fuel : nat) (samples : Z) : M Z :=
  auto_wake fuel ;;
  values <- with_lock (comprehension (Z.to_nat samples) (_read_raw fuel)) ;;
  v <- py (rbind (median values) int) ;;
  assign (set_offset v) ;;
  attr offset.

Definition calibrate (fuel : nat) (reference_weight : num) (samples : Z)
  : M num :=
  auto_wake fuel ;;
  values <- with_lock (comprehension (Z.to_nat samples)
                         (r <- _read_raw fuel ;;
                          o <- attr offset ;;
                          ret (int_sub r o))) ;;
  v <- py (rbind (median values) (fun m => truediv m reference_weight)) ;;
  assign (set_scale (PyFloat v)) ;;
  attr scale.

Definition get_weight (fuel : nat) : M float :=
  auto_wake fuel ;;
  with_lock (r <- _read_raw fuel ;;
             o <- attr offset ;;
             s <- attr scale ;;
             py (truediv (PyInt (int_sub r o)) s)).

(** [gain not in (128, 64, 32)] *)
Definition valid_gain (g : Z) : bool :=
  (g =? 128) || (g =? 64) || (g =? 32).

(** The getter and the setter of the [gain] property. *)
Definition gain : M Z := attr _gain.

Definition gain_setter (fuel : nat) (value : Z) : M unit :=
  if negb (valid_gain value) then raise ValueError
  else
    cur <- attr _gain ;;
    if value =? cur then ret tt
    else
      assign (set_gain value) ;;
      auto_wake fuel ;;
      with_lock (_read_raw fuel ;; ret tt).

(** The getter of the [power_down] property. *)
Definition power_down : M bool := attr _power_down.

(** [__init__], as a method of the instance it initialises: it never reads
    an attribute before assigning it, so the attributes the instance starts
    with are arbitrary.  The lock it creates has no state of its own here:
    its acquisitions and releases are events. *)
Definition __init__ (fuel : nat) (dt_pin sck_pin gain : Z) : M unit :=
  assign (set_dt dt_pin) ;;
  assign (set_sck sck_pin) ;;
  if negb (valid_gain gain) then raise ValueError
  else
    assign (set_gain gain) ;;
    assign (set_offset 0) ;;
    assign (set_scale (PyInt 1)) ;;
    assign (set_power_down false) ;;
    emit Setmode_BCM ;;
    d <- attr dt ;;
    emit (Setup_in d) ;;
    c <- attr sck ;;
    emit (Setup_out c LOW) ;;
    _read_raw fuel ;;
    ret tt.

Definition cleanup : M unit :=
  d <- attr dt ;;
  c <- attr sck ;;
  emit (Cleanup [d; c]).

End HX711.

(* ================================================================= *)
(** ** What one conversion frame looks like on the lines

    The protocol of [_read_raw] described from the outside, without the
    polling budget: where on the data line a frame starts, which value it
    carries and which events it leaves in the log. *)

Module Frame.
Import Py GPIO HX711.

(** The chip answers every poll sequence within [B] polls. *)
Definition responsive (B : nat) (d : nat -> level) : Prop :=
  forall i, exists j, (j < B)%nat /\ d (i + j)%nat = LOW.

(** Number of polls, from read [i] on, that find the line high before one
    finds it low (at most [B] are looked at). *)
Fixpoint busy_polls (B : nat) (d : nat -> level) (i : nat) : nat :=
  match B with
  | O => O
  | S B' =>
      match d i with
      | LOW => O
      | HIGH => S (busy_polls B' d (S i))
      end
  end.

(** A decidable sufficient condition for [responsive], for a line that is
    low from read [n] on. *)
Definition responsiveb (B n : nat) (d : nat -> level) : bool :=
  Nat.ltb 0 B
  && forallb (fun i => level_eqb (d (i + busy_polls B d i)%nat) LOW
                       && Nat.ltb (busy_polls B d i) B) (seq 0 n).

(** The number a list of levels spells, most significant bit first. *)
Fixpoint bits_value (ls : list level) : Z :=
  match ls with
  | [] => 0
  | l :: ls' => bit l * 2 ^ Z.of_nat (length ls') + bits_value ls'
  end.

(** The levels found by reads [i], [i+1], ..., [i+n-1]. *)
Definition levels_at (d : nat -> level) (i n : nat) : list level :=
  map d (seq i n).

Definition poll_events (dt : Z) (k : nat) : list event :=
  concat (repeat [Input dt HIGH; Sleep 10000] k) ++ [Input dt LOW].

Definition data_events (sck dt : Z) (ls : list level) : list event :=
  flat_map (fun l => [Output sck HIGH; Output sck LOW; Input dt l]) ls.

Definition pulse_events (sck : Z) (n : nat) : list event :=
  concat (repeat [Output sck HIGH; Output sck LOW] n).

Section OneFrame.
Variable B : nat.
Variable h : obj.
Variable d : nat -> level.

(** The frame that starts being polled for at read [i]. *)
Definition frame_pattern (i : nat) : Z :=
  bits_value (levels_at d (i + busy_polls B d i + 1) 24).

Definition frame_value (i : nat) : Z :=
  let p := frame_pattern i in
  if Z.testbit p 23 then p - 0x1000000 else p.

Definition frame_events (i : nat) : list event :=
  poll_events (dt h) (busy_polls B d i)
  ++ data_events (sck h) (dt h) (levels_at d (i + busy_polls B d i + 1) 24)
  ++ pulse_events (sck h) (gain_pulses (_gain h)).

Definition frame_next (i : nat) : nat := (i + busy_polls B d i + 25)%nat.

(** [n] frames in a row, from read [i] on. *)
Fixpoint frames_values (n i : nat) : list Z :=
  match n with
  | O => []
  | S n' => frame_value i :: frames_values n' (frame_next i)
  end.

Fixpoint frames_events (n i : nat) : list event :=
  match n with
  | O => []
  | S n' => frame_events i ++ frames_events n' (frame_next i)
  end.

Fixpoint frames_next (n i : nat) : nat :=
  match n with
  | O => i
  | S n' => frames_next n' (frame_next i)
  end.
End OneFrame.

(** The world after [n] frames were read under one acquisition of the
    lock. *)
Definition sampled (B : nat) (h : obj) (n : nat) (w : world) : world :=
  mkWorld (line w)
          (frames_next B (line w) n (reads w))
          (trace w ++ [Acquire]
                   ++ frames_events B h (line w) n (reads w)
                   ++ [Release]).

(** The world after the transition PoweredDown -> Active. *)
Definition woken_world (B : nat) (h : obj) (w : world) : world :=
  mkWorld (line w)
          (frame_next B (line w) (reads w))
          (trace w ++ [Acquire; Output (sck h) LOW]
                   ++ frame_events B h (line w) (reads w)
                   ++ [Release]).

(** The state after [if self._power_down: self.power_down = False]. *)
Definition awake (B : nat) (s : state) : state :=
  if _power_down (fst s)
  then (set_power_down false (fst s), woken_world B (fst s) (snd s))
  else s.

(** Number of rising edges put on the clock pin [sck]. *)
Definition rising_edges (sck : Z) (t : list event) : nat :=
  length (filter (fun e => match e with
                           | Output p HIGH => p =? sck
                           | _ => false
                           end) t).

(** The outcome of a call that ends by evaluating a Python expression. *)
Definition py_outcome {A} (r : res A) : outcome A :=
  match r with
  | inl e => Raise e
  | inr a => Ok a
  end.

End Frame.

(* ================================================================= *)
(** ** Sessions

    A client of the class: it constructs an instance and then makes any
    sequence of calls on it, catching what they raise.  What the log says
    about the clock line and about the lock. *)

Module Session.
Import Py GPIO HX711.

(** The public operations of an instance (short of [cleanup], which ends
    its life). *)
Inductive call : Type :=
| Tare (samples : Z)
| Calibrate (reference_weight : num) (samples : Z)
| GetWeight
| GetGain
| SetGain (value : Z)
| GetPowerDown
| SetPowerDown (value : bool).

Definition run (fuel : nat) (c : call) : M unit :=
  match c with
  | Tare n => tare fuel n ;; ret tt
  | Calibrate rw n => calibrate fuel rw n ;; ret tt
  | GetWeight => get_weight fuel ;; ret tt
  | GetGain => gain ;; ret tt
  | SetGain v => gain_setter fuel v
  | GetPowerDown => power_down ;; ret tt
  | SetPowerDown v => power_down_setter fuel v
  end.

(** The calls in turn; an exception is caught and the next call made. *)
Fixpoint run_all (fuel : nat) (cs : list call) : M unit :=
  match cs with
  | [] => ret tt
  | c :: cs' =>
      fun s =>
        match run fuel c s with
        | (Blocked, s') => (Blocked, s')
        | (_, s') => run_all fuel cs' s'
        end
  end.

(** [hx = HX711(dt_pin, sck_pin, gain)] followed by the calls. *)
Definition session (fuel : nat) (dt_pin sck_pin gain : Z) (cs : list call)
  : M unit :=
  __init__ fuel dt_pin sck_pin gain ;; run_all fuel cs.

(** The level an event leaves on pin [sck], if it drives it. *)
Definition drives (sck : Z) (e : event) : option level :=
  match e with
  | Output p l | Setup_out p l => if p =? sck then Some l else None
  | _ => None
  end.

(** The level pin [sck] was last driven to, starting from [l0]. *)
Definition level_from (sck : Z) (l0 : option level) (t : list event)
  : option level :=
  fold_left (fun acc e => match drives sck e with
                          | Some l => Some l
                          | None => acc
                          end) t l0.

Definition clock_level (sck : Z) (t : list event) : option level :=
  level_from sck None t.

(** Reading the log of a method against the lock: [Some held] when the lock
    is never acquired while held nor released while free, and the lines are
    written and read only while it is held; [held] tells whether it is held
    at the end. *)
Fixpoint guarded (held : bool) (t : list event) : option bool :=
  match t with
  | [] => Some held
  | Acquire :: t' => if held then None else guarded true t'
  | Release :: t' => if held then guarded false t' else None
  | Output _ _ :: t' | Input _ _ :: t' =>
      if held then guarded held t' else None
  | _ :: t' => guarded held t'
  end.

(** Where the driver means the clock to rest: high while the chip is
    powered down, low otherwise. *)
Definition idle_level (h : obj) : level :=
  if _power_down h then HIGH else LOW.

(** What holds of an instance between two calls. *)
Definition sound (s : state) : Prop :=
  valid_gain (_gain (fst s)) = true
  /\ clock_level (sck (fst s)) (trace (snd s)) = Some (idle_level (fst s)).

(** A step from [s] to [s'] that logs [evs]: same data line and pins, the
    instance sound again, the lock used properly and free at the end. *)
Definition step_ok (s s' : state) (evs : list event) : Prop :=
  line (snd s') = line (snd s)
  /\ trace (snd s') = trace (snd s) ++ evs
  /\ dt (fst s') = dt (fst s)
  /\ sck (fst s') = sck (fst s)
  /\ sound s'
  /\ guarded false evs = Some false.

End Session.

(* ================================================================= *)
(** ** Test fixtures *)

Module Bench.
Import Py GPIO HX711.

(** A fresh instance on pins 5 (data) and 6 (clock), gain 128. *)
Definition hx : obj := mkObj 5 6 128 0 (PyInt 1) false.

(** A chip that keeps the line high for [polls] polls before each frame and
    then sends the given 24-bit patterns, one per frame. *)
Definition chip (polls : nat) (patterns : list Z) : world :=
  mkWorld
    (script (flat_map (fun p => repeat HIGH polls ++ frame_levels p) patterns))
    0 [].

End Bench.

Import Py GPIO HX711 Frame.

(* ================================================================= *)
(** ** Facts about the Python fragment *)

(** *** [sorted] sorts *)

Lemma insert_perm x l : Permutation (x :: l) (insert x l).
Proof.
  induction l as [|y l IH]; cbn [insert].
  - apply Permutation_refl.
  - destruct (x <=? y).
    + apply Permutation_refl.
    + eapply perm_trans; [apply perm_swap|]. now apply perm_skip.
Qed.

Lemma sorted_perm l : Permutation l (sorted l).
Proof.
  induction l as [|x l IH]; cbn [sorted fold_right].
  - apply perm_nil.
  - eapply perm_trans; [apply perm_skip, IH|]. apply insert_perm.
Qed.

Lemma insert_sorted x l :
  LocallySorted Z.le l -> LocallySorted Z.le (insert x l).
Proof.
  induction 1 as [|y|y z l Hs IH Hyz]; cbn [insert].
  - constructor.
  - destruct (Z.leb_spec x y); repeat constructor; lia.
  - cbn [insert] in IH.
    destruct (Z.leb_spec x y).
    + repeat constructor; assumption || lia.
    + destruct (Z.leb_spec x z); repeat constructor; assumption || lia.
Qed.

Lemma sorted_sorted l : LocallySorted Z.le (sorted l).
Proof.
  induction l as [|x l IH]; cbn [sorted fold_right].
  - constructor.
  - now apply insert_sorted.
Qed.

Lemma sorted_length l : length (sorted l) = length l.
Proof. symmetry. apply Permutation_length, sorted_perm. Qed.

Lemma sorted_nth_bound (c : Z) l i :
  0 <= c -> Forall (fun v => Z.abs v <= c) l ->
  Z.abs (nth i (sorted l) 0) <= c.
Proof.
  intros Hc Hl.
  destruct (Nat.lt_ge_cases i (length (sorted l))) as [Hi|Hi].
  - assert (Hin : In (nth i (sorted l) 0) l).
    { eapply Permutation_in; [apply Permutation_sym, sorted_perm|].
      now apply nth_In. }
    rewrite Forall_forall in Hl. now apply Hl.
  - rewrite nth_overflow by assumption. simpl. lia.
Qed.

(** *** The numeric model on known values

    The right-hand sides are what CPython prints for the same
    expressions. *)

Example truediv_int_int :
  truediv (PyInt 1) (PyInt 3) = inr 0x1.5555555555555p-2%float.
Proof. reflexivity. Qed.

Example truediv_large_int :
  truediv (PyInt (2 ^ 80 + 1)) (PyInt 3) = inr 0x1.5555555555555p+78%float.
Proof. reflexivity. Qed.

Example truediv_signed_zero :
  truediv (PyInt 0) (PyInt (- 2 ^ 75)) = inr (-0)%float.
Proof. reflexivity. Qed.

Example truediv_overflow :
  truediv (PyInt (2 ^ 1100)) (PyInt 3) = inl OverflowError.
Proof. reflexivity. Qed.

Example truediv_int_zero : truediv (PyInt 5) (PyInt 0) = inl ZeroDivisionError.
Proof. reflexivity. Qed.

Example truediv_float_negzero :
  truediv (PyInt 5) (PyFloat (-0)) = inl ZeroDivisionError.
Proof. reflexivity. Qed.

Example float_of_int_largest :
  float_of_int (float_max_int - 1) = inr 0x1.fffffffffffffp+1023%float
  /\ Z2float float_max_int = infinity.
Proof. split; reflexivity. Qed.

Example median_even : median [10; 12; 11; 1000] = inr (PyFloat 11.5).
Proof. reflexivity. Qed.

Example int_median_negative :
  rbind (median [-10; -13]) int = inr (-11).
Proof. reflexivity. Qed.

Example median_empty : median [] = inl StatisticsError.
Proof. reflexivity. Qed.

(** *** Exactness of the conversions the median relies on

    [Z2float] is exact below [2^52], halving such a double is exact up to
    the last bit, and [int()] truncates it: [int((a + b) / 2)] is the
    truncated mean. *)

Lemma digits2_pos_bounds (p : positive) :
  2 ^ (Z.pos (digits2_pos p) - 1) <= Z.pos p < 2 ^ Z.pos (digits2_pos p).
Proof.
  induction p as [p IH|p IH|]; cbn [digits2_pos].
  - rewrite Pos2Z.inj_succ.
    replace (Z.succ (Z.pos (digits2_pos p)) - 1)
      with (Z.succ (Z.pos (digits2_pos p) - 1)) by lia.
    rewrite !Z.pow_succ_r by lia. lia.
  - rewrite Pos2Z.inj_succ.
    replace (Z.succ (Z.pos (digits2_pos p)) - 1)
      with (Z.succ (Z.pos (digits2_pos p) - 1)) by lia.
    rewrite !Z.pow_succ_r by lia. lia.
  - simpl. lia.
Qed.

Lemma digits2_pos_shift (p k : positive) :
  digits2_pos (Pos.iter xO p k) = (digits2_pos p + k)%positive.
Proof.
  induction k as [|k IH] using Pos.peano_ind.
  - simpl. lia.
  - rewrite Pos.iter_succ. cbn [digits2_pos]. rewrite IH. lia.
Qed.

Lemma pos_shift_value (p k : positive) :
  Z.pos (Pos.iter xO p k) = Z.pos p * 2 ^ Z.pos k.
Proof.
  induction k as [|k IH] using Pos.peano_ind.
  - simpl. lia.
  - rewrite Pos.iter_succ, Pos2Z.inj_succ, Z.pow_succ_r by lia.
    rewrite Pos2Z.inj_xO, IH. lia.
Qed.

(** A canonical 53-bit mantissa rounds to itself. *)
Lemma binary_round_aux_canonical s (m : positive) e :
  digits2_pos m = 53%positive -> -1074 <= e <= 971 ->
  binary_round_aux prec emax s (Z.pos m) e loc_Exact = S754_finite s m e.
Proof.
  intros Hd He. unfold binary_round_aux, shr_fexp.
  cbn [Zdigits2 shr_record_of_loc]. rewrite Hd.
  assert (H0 : fexp prec emax (53 + e) - e = 0).
  { unfold fexp, SpecFloat.emin, prec, emax. lia. }
  rewrite H0. cbn [shr shr_m loc_of_shr_record round_nearest_even Zdigits2].
  rewrite Hd, H0. cbn [shr shr_m].
  replace (e <=? emax - prec) with true; [reflexivity|].
  symmetry. apply Z.leb_le. unfold emax, prec. lia.
Qed.

Lemma binary_normalize_pos (p : positive) :
  Z.pos p < 2 ^ 52 ->
  exists m, digits2_pos m = 53%positive
    /\ Z.pos m = Z.pos p * 2 ^ (53 - Z.pos (digits2_pos p))
    /\ forall s, binary_round prec emax s p 0 =
                 S754_finite s m (Z.pos (digits2_pos p) - 53).
Proof.
  intros Hp. pose proof (digits2_pos_bounds p) as Hb.
  set (d := digits2_pos p) in *.
  assert (Hd : Z.pos d <= 52).
  { destruct (Z.le_gt_cases (Z.pos d) 52) as [|Hgt]; [assumption|].
    assert (2 ^ 52 <= 2 ^ (Z.pos d - 1)) by (apply Z.pow_le_mono_r; lia).
    lia. }
  assert (Hk : exists k, Z.pos k = 53 - Z.pos d).
  { exists (Z.to_pos (53 - Z.pos d)). rewrite Z2Pos.id; lia. }
  destruct Hk as [k Hk].
  exists (Pos.iter xO p k). split; [|split].
  - rewrite digits2_pos_shift. fold d. lia.
  - now rewrite pos_shift_value, Hk.
  - intros s. unfold binary_round. fold d.
    assert (Hf : fexp prec emax (Z.pos d + 0) = Z.pos d - 53).
    { unfold fexp, SpecFloat.emin, prec, emax. lia. }
    rewrite Hf. unfold shl_align.
    replace (Z.pos d - 53 - 0) with (Z.neg k) by lia.
    apply binary_round_aux_canonical.
    + rewrite digits2_pos_shift. fold d. lia.
    + lia.
Qed.

Lemma binary_round_aux_even s (m : positive) e :
  digits2_pos m = 53%positive -> -1075 <= e <= 970 ->
  binary_round_aux prec emax s (Z.pos (xO m)) e loc_Exact
  = S754_finite s m (e + 1).
Proof.
  intros Hd He. unfold binary_round_aux, shr_fexp.
  cbn [Zdigits2 digits2_pos shr_record_of_loc]. rewrite Hd.
  assert (H1 : fexp prec emax (Z.pos (Pos.succ 53) + e) - e = 1).
  { unfold fexp, SpecFloat.emin, prec, emax. lia. }
  rewrite H1.
  cbn [shr iter_pos shr_1 orb shr_m loc_of_shr_record round_nearest_even
       Zdigits2].
  rewrite Hd.
  assert (H0 : fexp prec emax (53 + (e + 1)) - (e + 1) = 0).
  { unfold fexp, SpecFloat.emin, prec, emax. lia. }
  rewrite H0. cbn [shr shr_m].
  replace (e + 1 <=? emax - prec) with true; [reflexivity|].
  symmetry. apply Z.leb_le. unfold emax, prec. lia.
Qed.

Lemma SFdiv_two s (m : positive) e :
  digits2_pos m = 53%positive -> -1000 <= e <= 900 ->
  SFdiv prec emax (S754_finite s m e)
                  (S754_finite false 4503599627370496 (-51))
  = S754_finite s m (e - 1).
Proof.
  intros Hd He. unfold SFdiv, SFdiv_core_binary.
  cbn [Zdigits2]. rewrite Hd.
  change (Z.pos (digits2_pos 4503599627370496)) with 53.
  assert (He' : Z.min (fexp prec emax (53 + e - (53 + -51))) (e - -51)
                = e - 2).
  { unfold fexp, SpecFloat.emin, prec, emax. lia. }
  rewrite He'.
  replace (e - -51 - (e - 2)) with 53 by lia.
  rewrite Z.shiftl_mul_pow2 by lia.
  pose proof (Z_div_mod (Z.pos m * 2 ^ 53) 4503599627370496 eq_refl) as Hdm.
  destruct (Z.div_eucl (Z.pos m * 2 ^ 53) 4503599627370496) as [q r].
  assert (Hq : q = Z.pos (xO m) /\ r = 0).
  { change (2 ^ 53) with (2 * 4503599627370496) in Hdm. lia. }
  destruct Hq as [-> ->].
  change (new_location 4503599627370496 0) with loc_Exact.
  rewrite xorb_false_r.
  rewrite binary_round_aux_even by (assumption || lia).
  f_equal. lia.
Qed.

Lemma Prim2SF_Z2float_two :
  Prim2SF (Z2float 2) = S754_finite false 4503599627370496 (-51).
Proof. reflexivity. Qed.

Lemma digits2_pos_le (p : positive) n :
  0 <= n -> Z.pos p < 2 ^ n -> Z.pos (digits2_pos p) <= n.
Proof.
  intros Hn Hp. pose proof (digits2_pos_bounds p) as Hb.
  destruct (Z.le_gt_cases (Z.pos (digits2_pos p)) n) as [|Hgt]; [assumption|].
  assert (2 ^ n <= 2 ^ (Z.pos (digits2_pos p) - 1))
    by (apply Z.pow_le_mono_r; lia).
  lia.
Qed.

(** The double nearest to a moderate integer, seen as a specification-level
    float: the integer is represented exactly. *)
Lemma Prim2SF_Z2float_pos (s : bool) (p : positive) :
  Z.pos p < 2 ^ 52 ->
  exists m, digits2_pos m = 53%positive
    /\ Z.pos m = Z.pos p * 2 ^ (53 - Z.pos (digits2_pos p))
    /\ Prim2SF (SF2Prim (binary_round prec emax s p 0)) =
       S754_finite s m (Z.pos (digits2_pos p) - 53).
Proof.
  intros Hp. destruct (binary_normalize_pos p Hp) as (m & Hd & Hm & Hbr).
  pose proof (digits2_pos_le p 52 ltac:(lia) Hp) as Hle.
  exists m. repeat split; try assumption.
  rewrite Hbr. apply Prim2SF_SF2Prim.
  cbn [valid_binary]. unfold bounded, canonical_mantissa. rewrite Hd.
  apply andb_true_intro. split.
  - apply Z.eqb_eq. unfold fexp, SpecFloat.emin, prec, emax. lia.
  - apply Z.leb_le. unfold prec, emax. lia.
Qed.

Lemma half_mantissa (p m : positive) :
  Z.pos p < 2 ^ 52 ->
  Z.pos m = Z.pos p * 2 ^ (53 - Z.pos (digits2_pos p)) ->
  Z.pos m / 2 ^ (- (Z.pos (digits2_pos p) - 53 - 1)) = Z.pos p / 2.
Proof.
  intros Hp ->. pose proof (digits2_pos_le p 52 ltac:(lia) Hp) as Hle.
  replace (- (Z.pos (digits2_pos p) - 53 - 1))
    with (Z.succ (53 - Z.pos (digits2_pos p))) by lia.
  rewrite Z.pow_succ_r by lia.
  rewrite Z.div_mul_cancel_r; lia.
Qed.

Lemma int_of_float_half (z : Z) :
  Z.abs z < 2 ^ 52 ->
  int_of_float (Z2float z / Z2float 2) = inr (Z.quot z 2).
Proof.
  intros Hz. unfold int_of_float.
  rewrite div_spec, Prim2SF_Z2float_two. unfold Z2float, SF64div.
  destruct z as [|p|p]; cbn [binary_normalize].
  - reflexivity.
  - destruct (Prim2SF_Z2float_pos false p) as (m & Hd & Hm & ->); [lia|].
    pose proof (digits2_pos_le p 52 ltac:(lia) ltac:(lia)) as Hle.
    rewrite SFdiv_two by (assumption || lia).
    replace (0 <=? Z.pos (digits2_pos p) - 53 - 1) with false
      by (symmetry; apply Z.leb_gt; lia).
    rewrite (half_mantissa p m) by (assumption || lia).
    now rewrite Z.quot_div_nonneg by lia.
  - destruct (Prim2SF_Z2float_pos true p) as (m & Hd & Hm & ->); [lia|].
    pose proof (digits2_pos_le p 52 ltac:(lia) ltac:(lia)) as Hle.
    rewrite SFdiv_two by (assumption || lia).
    replace (0 <=? Z.pos (digits2_pos p) - 53 - 1) with false
      by (symmetry; apply Z.leb_gt; lia).
    rewrite (half_mantissa p m) by (assumption || lia).
    change (Z.neg p) with (- Z.pos p).
    rewrite Z.quot_opp_l by lia.
    now rewrite Z.quot_div_nonneg by lia.
Qed.

(* ================================================================= *)
(** ** The bit-transfer engine *)

Lemma lor_shift_bit (v : Z) (l : level) :
  Z.lor (Z.shiftl v 1) (bit l) = 2 * v + bit l.
Proof.
  rewrite Z.shiftl_mul_pow2 by lia.
  change (2 ^ 1) with 2. rewrite (Z.mul_comm v 2).
  destruct l; simpl bit.
  - rewrite Z.lor_0_r. lia.
  - apply Z.bits_inj'. intros n Hn.
    rewrite Z.lor_spec.
    destruct (Z.eq_dec n 0) as [->|Hne].
    + now rewrite Z.testbit_odd_0, orb_true_r.
    + replace n with (Z.succ (n - 1)) by lia.
      rewrite Z.testbit_even_succ, Z.testbit_odd_succ by lia.
      replace (Z.testbit 1 (Z.succ (n - 1))) with false; [apply orb_false_r|].
      symmetry. apply Z.bits_above_log2; simpl; lia.
Qed.

Lemma bind_eq {A B} (m : M A) (k : A -> M B) s :
  bind m k s = match m s with
               | (Ok a, s') => k a s'
               | (Raise e, s') => (Raise e, s')
               | (Blocked, s') => (Blocked, s')
               end.
Proof. reflexivity. Qed.

Lemma levels_at_S d i n :
  levels_at d i (S n) = d i :: levels_at d (S i) n.
Proof. reflexivity. Qed.

Lemma levels_at_length d i n : length (levels_at d i n) = n.
Proof. unfold levels_at. now rewrite length_map, length_seq. Qed.

Lemma read_bits_spec n : forall v h w,
  read_bits n v (h, w) =
  (Ok (v * 2 ^ Z.of_nat n + bits_value (levels_at (line w) (reads w) n)),
   (h, mkWorld (line w) (reads w + n)
         (trace w ++ data_events (sck h) (dt h)
                       (levels_at (line w) (reads w) n)))).
Proof.
  induction n as [|n IH]; intros v h w.
  - simpl. unfold ret. destruct w as [d i t]; simpl.
    rewrite Nat.add_0_r, app_nil_r. do 3 f_equal. lia.
  - cbn [read_bits].
    unfold clock_pulse, gpio_output, gpio_input, emit, attr, bind.
    cbn [fst snd sample log line reads trace].
    rewrite IH. cbn [line reads trace sck dt].
    rewrite lor_shift_bit, levels_at_S.
    cbn [bits_value data_events flat_map].
    rewrite levels_at_length.
    f_equal; [f_equal|f_equal; f_equal].
    + rewrite Nat2Z.inj_succ, Z.pow_succ_r by lia. ring.
    + lia.
    + rewrite <- !app_assoc. reflexivity.
Qed.

Lemma land_sign_bit (p : Z) :
  Z.land p 0x800000 = Z.b2z (Z.testbit p 23) * 2 ^ 23.
Proof.
  change 0x800000 with (2 ^ 23).
  apply Z.bits_inj'. intros n Hn.
  rewrite Z.land_spec, Z.pow2_bits_eqb, Z.mul_pow2_bits by lia.
  destruct (Z.eqb_spec 23 n) as [<-|Hne].
  - change (23 - 23) with 0. now rewrite Z.b2z_bit0, andb_true_r.
  - rewrite andb_false_r. symmetry.
    destruct (Z.lt_ge_cases n 23).
    + apply Z.testbit_neg_r. lia.
    + destruct (Z.testbit p 23); simpl Z.b2z.
      * apply Z.bits_above_log2; simpl; lia.
      * apply Z.bits_0.
Qed.

Lemma land_low_bits (p : Z) : Z.land p 0x7fffff = p mod 2 ^ 23.
Proof. change 0x7fffff with (Z.ones 23). apply Z.land_ones. lia. Qed.

Lemma sign_bit_24 (p : Z) :
  0 <= p < 2 ^ 24 -> Z.b2z (Z.testbit p 23) = p / 2 ^ 23.
Proof.
  intros Hp. rewrite Z.testbit_spec' by lia.
  apply Z.mod_small. split.
  - apply Z.div_pos; lia.
  - apply Z.div_lt_upper_bound; lia.
Qed.

Lemma twos_complement_24 (p : Z) :
  0 <= p < 2 ^ 24 ->
  twos_complement p = if Z.testbit p 23 then p - 0x1000000 else p.
Proof.
  intros Hp. unfold twos_complement.
  rewrite land_sign_bit, land_low_bits.
  pose proof (sign_bit_24 p Hp) as Hb.
  pose proof (Z.div_mod p (2 ^ 23) ltac:(lia)) as Hdm.
  destruct (Z.testbit p 23); simpl Z.b2z in *; lia.
Qed.

Lemma twos_complement_masked (p : Z) :
  0 <= p < 2 ^ 24 ->
  twos_complement p =
  if Z.testbit p 23 then Z.land p 0x7FFFFF - 0x800000 else p.
Proof.
  intros Hp. unfold twos_complement.
  rewrite land_sign_bit, land_low_bits.
  pose proof (sign_bit_24 p Hp) as Hb.
  pose proof (Z.div_mod p (2 ^ 23) ltac:(lia)) as Hdm.
  destruct (Z.testbit p 23); simpl Z.b2z in *; lia.
Qed.

Lemma bits_value_range (ls : list level) :
  0 <= bits_value ls < 2 ^ Z.of_nat (length ls).
Proof.
  induction ls as [|l ls IH].
  - simpl. lia.
  - cbn [bits_value length]. rewrite Nat2Z.inj_succ, Z.pow_succ_r by lia.
    destruct l; simpl bit; lia.
Qed.

Lemma busy_polls_found B : forall d i j,
  (j < B)%nat -> d (i + j)%nat = LOW ->
  (busy_polls B d i <= j)%nat /\ d (i + busy_polls B d i)%nat = LOW.
Proof.
  induction B as [|B IH]; intros d i j Hj Hlow; [lia|].
  cbn [busy_polls]. destruct (d i) eqn:Hdi.
  - split; [lia|]. now rewrite Nat.add_0_r.
  - destruct j as [|j]; [rewrite Nat.add_0_r in Hlow; congruence|].
    destruct (IH d (S i) j) as [Hle Hk];
      [lia|now replace (S i + j)%nat with (i + S j)%nat by lia|].
    split; [lia|].
    now replace (i + S (busy_polls B d (S i)))%nat
      with (S i + busy_polls B d (S i))%nat by lia.
Qed.

Lemma responsive_busy_polls B d i :
  responsive B d ->
  (busy_polls B d i < B)%nat /\ d (i + busy_polls B d i)%nat = LOW.
Proof.
  intros H. destruct (H i) as (j & Hj & Hlow).
  destruct (busy_polls_found B d i j Hj Hlow). split; [lia|assumption].
Qed.

Lemma wait_ready_spec B : forall fuel h w,
  (busy_polls B (line w) (reads w) < B)%nat ->
  line w (reads w + busy_polls B (line w) (reads w))%nat = LOW ->
  (B <= fuel)%nat ->
  wait_ready fuel (h, w) =
  (Ok tt,
   (h, mkWorld (line w) (reads w + busy_polls B (line w) (reads w) + 1)
         (trace w ++ poll_events (dt h) (busy_polls B (line w) (reads w))))).
Proof.
  induction B as [|B IH]; intros fuel h w Hlt Hlow Hfuel; [lia|].
  destruct fuel as [|fuel]; [lia|].
  cbn [busy_polls] in *. cbn [wait_ready].
  unfold _is_ready, gpio_input, attr, bind, sample, ret.
  cbn [fst snd].
  destruct (line w (reads w)) eqn:Hl; cbn [level_eqb].
  - unfold poll_events. cbn [repeat concat app]. do 3 f_equal. lia.
  - unfold sleep, emit, log. cbn [fst snd line reads trace].
    rewrite IH; cbn [line reads trace]; try lia.
    + unfold poll_events. cbn [repeat concat].
      rewrite <- !app_assoc. cbn [app].
      do 3 f_equal. lia.
    + now replace (S (reads w) + busy_polls B (line w) (S (reads w)))%nat
        with (reads w + S (busy_polls B (line w) (S (reads w))))%nat by lia.
Qed.

(** A chip that never pulls the line low is polled for ever: whatever the
    budget, the read is still waiting when it is used up. *)
Lemma wait_ready_blocks fuel : forall h w,
  (forall i, line w i = HIGH) -> fst (wait_ready fuel (h, w)) = Blocked.
Proof.
  induction fuel as [|fuel IH]; intros h w Hhigh; [reflexivity|].
  cbn [wait_ready].
  unfold _is_ready, gpio_input, attr, bind, sample, ret, sleep, emit.
  cbn [fst snd]. rewrite Hhigh. cbn [level_eqb].
  apply IH. exact Hhigh.
Qed.

Lemma read_raw_blocks fuel h w :
  (forall i, line w i = HIGH) -> fst (_read_raw fuel (h, w)) = Blocked.
Proof.
  intros Hhigh. unfold _read_raw. rewrite bind_eq.
  pose proof (wait_ready_blocks fuel h w Hhigh) as Hb.
  destruct (wait_ready fuel (h, w)) as [[[]|e|] s']; cbn [fst] in Hb;
    try discriminate.
  reflexivity.
Qed.

Lemma for_range_pulses n : forall h w,
  for_range n clock_pulse (h, w) =
  (Ok tt, (h, log (pulse_events (sck h) n) w)).
Proof.
  induction n as [|n IH]; intros h w.
  - unfold log, pulse_events. simpl. rewrite app_nil_r.
    now destruct w.
  - cbn [for_range]. unfold clock_pulse at 1.
    unfold gpio_output, emit, attr, bind. cbn [fst snd].
    rewrite IH. unfold log, pulse_events.
    cbn [line reads trace repeat concat].
    rewrite <- !app_assoc. reflexivity.
Qed.

Lemma read_raw_spec B fuel h w :
  responsive B (line w) -> (B <= fuel)%nat ->
  _read_raw fuel (h, w) =
  (Ok (twos_complement (frame_pattern B (line w) (reads w))),
   (h, mkWorld (line w) (frame_next B (line w) (reads w))
         (trace w ++ frame_events B h (line w) (reads w)))).
Proof.
  intros Hr Hfuel.
  destruct (responsive_busy_polls B (line w) (reads w) Hr) as [Hlt Hlow].
  unfold _read_raw. rewrite bind_eq, (wait_ready_spec B) by assumption.
  rewrite bind_eq, read_bits_spec. cbn [line reads trace].
  unfold attr at 1. rewrite bind_eq. cbn [fst].
  rewrite bind_eq, for_range_pulses. unfold ret, log.
  cbn [line reads trace].
  unfold frame_pattern, frame_next, frame_events.
  rewrite <- !app_assoc. do 3 f_equal. lia.
Qed.

Lemma frame_pattern_range B d i : 0 <= frame_pattern B d i < 2 ^ 24.
Proof.
  unfold frame_pattern.
  pose proof (bits_value_range
                (levels_at d (i + busy_polls B d i + 1) 24)) as H.
  now rewrite levels_at_length in H.
Qed.

Lemma frame_value_decodes B d i :
  twos_complement (frame_pattern B d i) = frame_value B d i.
Proof. apply twos_complement_24, frame_pattern_range. Qed.

Lemma frame_value_range B d i : - 2 ^ 23 <= frame_value B d i < 2 ^ 23.
Proof.
  unfold frame_value.
  pose proof (frame_pattern_range B d i) as Hp.
  pose proof (sign_bit_24 _ Hp) as Hb.
  assert (Hq : frame_pattern B d i / 2 ^ 23 = 1 ->
               2 ^ 23 <= frame_pattern B d i).
  { intros H1. pose proof (Z.mul_div_le (frame_pattern B d i) (2 ^ 23)). lia. }
  assert (Hq0 : frame_pattern B d i / 2 ^ 23 = 0 ->
                frame_pattern B d i < 2 ^ 23).
  { intros H0. apply Z.div_small_iff in H0; lia. }
  destruct (Z.testbit (frame_pattern B d i) 23); simpl Z.b2z in Hb;
    change 0x1000000 with (2 ^ 24); lia.
Qed.

Lemma read_raw_frame B fuel h w :
  responsive B (line w) -> (B <= fuel)%nat ->
  _read_raw fuel (h, w) =
  (Ok (frame_value B (line w) (reads w)),
   (h, mkWorld (line w) (frame_next B (line w) (reads w))
         (trace w ++ frame_events B h (line w) (reads w)))).
Proof.
  intros Hr Hf. rewrite (read_raw_spec B) by assumption.
  now rewrite frame_value_decodes.
Qed.

Lemma with_lock_ok {A} (body : M A) h w a h' w' :
  body (h, log [Acquire] w) = (Ok a, (h', w')) ->
  with_lock body (h, w) = (Ok a, (h', log [Release] w')).
Proof. unfold with_lock. cbn [fst snd]. now intros ->. Qed.

Section Frames.
Variables (B fuel : nat).
Hypothesis Hfuel : (B <= fuel)%nat.

Lemma comprehension_frames {A} (body : M A) (g : Z -> A) h :
  (forall w, responsive B (line w) ->
             body (h, w) =
             (Ok (g (frame_value B (line w) (reads w))),
              (h, mkWorld (line w) (frame_next B (line w) (reads w))
                    (trace w ++ frame_events B h (line w) (reads w))))) ->
  forall n w, responsive B (line w) ->
    comprehension n body (h, w) =
    (Ok (map g (frames_values B (line w) n (reads w))),
     (h, mkWorld (line w) (frames_next B (line w) n (reads w))
           (trace w ++ frames_events B h (line w) n (reads w)))).
Proof.
  intros Hbody. induction n as [|n IH]; intros w Hr.
  - cbn. rewrite app_nil_r. now destruct w.
  - cbn [comprehension]. rewrite bind_eq, Hbody by assumption.
    rewrite bind_eq, IH by assumption.
    cbn [line reads trace frames_values frames_events frames_next map].
    unfold ret. now rewrite <- app_assoc.
Qed.

Lemma sampling_raw n h w :
  responsive B (line w) ->
  with_lock (comprehension n (_read_raw fuel)) (h, w) =
  (Ok (frames_values B (line w) n (reads w)), (h, sampled B h n w)).
Proof.
  intros Hr. erewrite with_lock_ok.
  2:{ apply (comprehension_frames (_read_raw fuel) (fun v => v)).
      - intros w' Hr'. now apply read_raw_frame.
      - exact Hr. }
  rewrite map_id. unfold sampled, log. cbn [line reads trace].
  now rewrite <- !app_assoc.
Qed.

Lemma sampling_adjusted n h w :
  responsive B (line w) ->
  with_lock (comprehension n (r <- _read_raw fuel ;;
                              o <- attr offset ;;
                              ret (int_sub r o))) (h, w) =
  (Ok (map (fun r => r - offset h) (frames_values B (line w) n (reads w))),
   (h, sampled B h n w)).
Proof.
  intros Hr. erewrite with_lock_ok.
  2:{ apply (comprehension_frames _ (fun r => r - offset h)).
      - intros w' Hr'. rewrite bind_eq, (read_raw_frame B) by assumption.
        reflexivity.
      - exact Hr. }
  unfold sampled, log. cbn [line reads trace].
  now rewrite <- !app_assoc.
Qed.

Lemma power_down_setter_same v h w :
  v = _power_down h ->
  power_down_setter fuel v (h, w) = (Ok tt, (h, w)).
Proof.
  intros ->. unfold power_down_setter, attr. rewrite bind_eq. cbn [fst].
  now rewrite Bool.eqb_reflx.
Qed.

Lemma power_down_setter_sleep h w :
  _power_down h = false ->
  power_down_setter fuel true (h, w) =
  (Ok tt,
   (set_power_down true h,
    log [Acquire; Output (sck h) LOW; Output (sck h) HIGH; Sleep 60; Release]
        w)).
Proof.
  intros Hpd. unfold power_down_setter, attr. rewrite bind_eq. cbn [fst].
  rewrite Hpd. cbn [Bool.eqb]. rewrite !bind_eq. cbn [fst snd].
  unfold with_lock, gpio_output, sleep, emit, bind, assign, log.
  cbn [fst snd line reads trace]. rewrite <- !app_assoc. reflexivity.
Qed.

Lemma power_down_setter_wake h w :
  _power_down h = true -> responsive B (line w) ->
  power_down_setter fuel false (h, w) =
  (Ok tt, (set_power_down false h, woken_world B h w)).
Proof.
  intros Hpd Hr. unfold power_down_setter, attr. rewrite bind_eq. cbn [fst].
  rewrite Hpd. cbn [Bool.eqb]. rewrite !bind_eq. cbn [fst snd].
  erewrite with_lock_ok.
  2:{ unfold gpio_output, emit. rewrite bind_eq. cbn [fst snd].
      rewrite bind_eq, (read_raw_frame B) by assumption. reflexivity. }
  unfold assign, woken_world, log. cbn [fst snd line reads trace].
  rewrite <- !app_assoc. reflexivity.
Qed.

Lemma auto_wake_spec h w :
  responsive B (line w) ->
  auto_wake fuel (h, w) = (Ok tt, awake B (h, w)).
Proof.
  intros Hr. unfold auto_wake, attr, awake. rewrite bind_eq. cbn [fst snd].
  destruct (_power_down h) eqn:Hpd.
  - now apply power_down_setter_wake.
  - reflexivity.
Qed.
End Frames.

Lemma awake_line B h w : line (snd (awake B (h, w))) = line w.
Proof. unfold awake. cbn [fst snd]. now destruct (_power_down h). Qed.

Lemma awake_attrs B h w :
  let h1 := fst (awake B (h, w)) in
  dt h1 = dt h /\ sck h1 = sck h /\ _gain h1 = _gain h
  /\ offset h1 = offset h /\ scale h1 = scale h /\ _power_down h1 = false.
Proof.
  unfold awake. cbn [fst snd].
  destruct (_power_down h) eqn:Hpd; cbn [fst]; repeat split; assumption.
Qed.

Lemma awake_active B h w : _power_down h = false -> awake B (h, w) = (h, w).
Proof. unfold awake. cbn [fst]. now intros ->. Qed.

(** *** Counting clock pulses *)

Lemma rising_edges_app sck t1 t2 :
  rising_edges sck (t1 ++ t2)
  = (rising_edges sck t1 + rising_edges sck t2)%nat.
Proof. unfold rising_edges. now rewrite filter_app, length_app. Qed.

Lemma rising_edges_polls sck dt k :
  rising_edges sck (poll_events dt k) = 0%nat.
Proof.
  unfold poll_events. rewrite rising_edges_app.
  induction k as [|k IH]; [reflexivity|].
  cbn [repeat concat]. rewrite rising_edges_app in *. exact IH.
Qed.

Lemma rising_edges_data sck dt ls :
  rising_edges sck (data_events sck dt ls) = length ls.
Proof.
  induction ls as [|l ls IH]; [reflexivity|].
  cbn [data_events flat_map]. fold (data_events sck dt ls).
  rewrite rising_edges_app, IH. unfold rising_edges. cbn [filter].
  now rewrite Z.eqb_refl.
Qed.

Lemma rising_edges_pulses sck n :
  rising_edges sck (pulse_events sck n) = n.
Proof.
  unfold pulse_events. induction n as [|n IH]; [reflexivity|].
  cbn [repeat concat]. rewrite rising_edges_app, IH.
  unfold rising_edges. cbn [filter]. now rewrite Z.eqb_refl.
Qed.

Lemma rising_edges_frame B h d i :
  rising_edges (sck h) (frame_events B h d i)
  = (24 + gain_pulses (_gain h))%nat.
Proof.
  unfold frame_events.
  rewrite !rising_edges_app, rising_edges_polls, rising_edges_data,
    rising_edges_pulses, levels_at_length.
  reflexivity.
Qed.

Lemma rising_edges_frames B h d n : forall i,
  rising_edges (sck h) (frames_events B h d n i)
  = (n * (24 + gain_pulses (_gain h)))%nat.
Proof.
  induction n as [|n IH]; intros i; [reflexivity|].
  cbn [frames_events]. now rewrite rising_edges_app, rising_edges_frame, IH.
Qed.

Lemma rising_edges_sampled B h n w :
  rising_edges (sck h) (trace (sampled B h n w))
  = (rising_edges (sck h) (trace w) + n * (24 + gain_pulses (_gain h)))%nat.
Proof.
  unfold sampled. cbn [trace].
  rewrite !rising_edges_app, rising_edges_frames.
  unfold rising_edges. cbn [filter length]. lia.
Qed.

Lemma frames_values_length B d n : forall i,
  length (frames_values B d n i) = n.
Proof.
  induction n as [|n IH]; intros i; [reflexivity|].
  cbn [frames_values length]. now rewrite IH.
Qed.

Lemma frames_values_range B d n : forall i,
  Forall (fun v => - 2 ^ 23 <= v < 2 ^ 23) (frames_values B d n i).
Proof.
  induction n as [|n IH]; intros i; cbn [frames_values]; constructor.
  - apply frame_value_range.
  - apply IH.
Qed.

(** *** [int(median(...))] is the integer median *)

Lemma odd_mod2 n : Nat.odd n = Nat.eqb (n mod 2) 1.
Proof.
  rewrite <- Nat.bit0_mod, Nat.bit0_odd. now destruct (Nat.odd n).
Qed.

Lemma median_int (c : Z) (data : list Z) :
  data <> [] -> 0 <= c < 2 ^ 51 ->
  Forall (fun v => Z.abs v <= c) data ->
  rbind (median data) int = inr (int_median data).
Proof.
  intros Hne Hc Hb. unfold median, int_median.
  rewrite odd_mod2.
  destruct (Nat.eqb_spec (length (sorted data)) 0) as [H0|_].
  { rewrite sorted_length in H0. now destruct data. }
  destruct (Nat.eqb (length (sorted data) mod 2) 1); [reflexivity|].
  set (i := (length (sorted data) / 2)%nat).
  pose proof (sorted_nth_bound c data (i - 1) ltac:(lia) Hb) as Ha.
  pose proof (sorted_nth_bound c data i ltac:(lia) Hb) as Hb'.
  set (a := nth (i - 1) (sorted data) 0) in *.
  set (b := nth i (sorted data) 0) in *.
  unfold int_truediv. cbn [Z.eqb].
  assert (Hs : small (a + b) && small 2 = true).
  { apply andb_true_intro. split; apply Z.ltb_lt; cbn [Z.abs]; lia. }
  rewrite Hs. cbn [rbind int].
  apply int_of_float_half. lia.
Qed.

(** *** True division away from the overflow range *)

Lemma float_of_int_moderate (z : Z) :
  Z.abs z < 2 ^ 52 -> float_of_int z = inr (Z2float z).
Proof.
  intros Hz. unfold float_of_int.
  replace (Z.abs z <? float_max_int) with true; [reflexivity|].
  symmetry. apply Z.ltb_lt.
  apply Z.lt_trans with (2 ^ 52); [assumption|reflexivity].
Qed.

Lemma Z2float_nonzero (z : Z) :
  z <> 0 -> Z.abs z < 2 ^ 52 -> (Z2float z =? 0)%float = false.
Proof.
  intros Hnz Hz. rewrite eqb_spec.
  change (Prim2SF 0) with (S754_zero false).
  unfold Z2float. destruct z as [|p|p]; [congruence| |]; cbn [binary_normalize].
  - destruct (Prim2SF_Z2float_pos false p) as (m & _ & _ & ->); [lia|].
    reflexivity.
  - destruct (Prim2SF_Z2float_pos true p) as (m & _ & _ & ->); [lia|].
    reflexivity.
Qed.

Lemma as_float_moderate (x : num) :
  moderate x -> as_float x = inr (to_float x).
Proof.
  destruct x as [z|f]; cbn [moderate as_float to_float]; intros H.
  - now apply float_of_int_moderate.
  - reflexivity.
Qed.

Lemma to_float_nonzero (y : num) :
  moderate y -> is_zero y = false -> (to_float y =? 0)%float = false.
Proof.
  destruct y as [z|f]; cbn [moderate is_zero to_float]; intros Hm Hz.
  - apply Z2float_nonzero; [|assumption]. now apply Z.eqb_neq.
  - assumption.
Qed.

Lemma truediv_moderate (x y : num) :
  moderate x -> moderate y -> is_zero y = false ->
  truediv x y = inr (to_float x / to_float y)%float.
Proof.
  intros Hx Hy Hz.
  assert (Hmixed :
    rbind (as_float x) (fun fx =>
    rbind (as_float y) (fun fy => float_truediv fx fy))
    = inr (to_float x / to_float y)%float).
  { rewrite !as_float_moderate by assumption. cbn [rbind].
    unfold float_truediv. now rewrite to_float_nonzero. }
  destruct x as [a|fx], y as [b|fy]; try exact Hmixed.
  cbn [truediv moderate is_zero to_float] in *.
  unfold int_truediv, small. rewrite Hz.
  replace (Z.abs a <? 2 ^ 53) with true by (symmetry; apply Z.ltb_lt; lia).
  replace (Z.abs b <? 2 ^ 53) with true by (symmetry; apply Z.ltb_lt; lia).
  reflexivity.
Qed.

Lemma truediv_by_zero (x y : num) :
  is_zero y = true ->
  (exists e, truediv x y = inl e)
  /\ (moderate x -> truediv x y = inl ZeroDivisionError).
Proof.
  intros Hz.
  assert (Hy : exists fy, as_float y = inr fy /\ (fy =? 0)%float = true).
  { destruct y as [b|fy]; cbn [is_zero as_float] in *.
    - apply Z.eqb_eq in Hz. subst b. exists (Z2float 0). split; reflexivity.
    - now exists fy. }
  destruct Hy as (fy & Hy & Hfy).
  destruct x as [a|fx], y as [b|fy'].
  - cbn [truediv is_zero] in *. unfold int_truediv. rewrite Hz.
    split; [now exists ZeroDivisionError|reflexivity].
  - cbn [truediv]. rewrite Hy. cbn [as_float]. split.
    + unfold float_of_int. destruct (Z.abs a <? float_max_int); cbn [rbind].
      * unfold float_truediv. rewrite Hfy. now exists ZeroDivisionError.
      * now exists OverflowError.
    + cbn [moderate]. intros Ha. rewrite float_of_int_moderate by assumption.
      cbn [rbind]. unfold float_truediv. now rewrite Hfy.
  - cbn [truediv]. rewrite Hy. cbn [as_float rbind].
    unfold float_truediv. rewrite Hfy.
    split; [now exists ZeroDivisionError|reflexivity].
  - cbn [truediv]. rewrite Hy. cbn [as_float rbind].
    unfold float_truediv. rewrite Hfy.
    split; [now exists ZeroDivisionError|reflexivity].
Qed.

(** The median of moderate data is moderate, when it exists. *)
Lemma median_moderate (c : Z) (data : list Z) :
  data <> [] -> 0 <= c < 2 ^ 51 ->
  Forall (fun v => Z.abs v <= c) data ->
  exists m, median data = inr m /\ moderate m.
Proof.
  intros Hne Hc Hb. unfold median.
  destruct (Nat.eqb_spec (length (sorted data)) 0) as [H0|_].
  { rewrite sorted_length in H0. now destruct data. }
  set (i := (length (sorted data) / 2)%nat).
  pose proof (sorted_nth_bound c data (i - 1) ltac:(lia) Hb) as Ha.
  pose proof (sorted_nth_bound c data i ltac:(lia) Hb) as Hb'.
  destruct (Nat.eqb (length (sorted data) mod 2) 1).
  - eexists. split; [reflexivity|]. cbn [moderate]. lia.
  - unfold int_truediv. cbn [Z.eqb].
    replace (small _ && small 2) with true.
    + eexists. split; [reflexivity|exact I].
    + symmetry. apply andb_true_intro.
      split; apply Z.ltb_lt; cbn [Z.abs]; lia.
Qed.

(* ================================================================= *)
(** ** The calibration pipeline *)

Section Pipeline.
Variables (B fuel : nat).
Hypothesis Hfuel : (B <= fuel)%nat.
Variables (h : obj) (w : world).
Hypothesis Hline : responsive B (line w).

Let h1 : obj := fst (awake B (h, w)).
Let w1 : world := snd (awake B (h, w)).

Lemma awake_responsive : responsive B (line w1).
Proof. unfold w1. now rewrite awake_line. Qed.

Lemma auto_wake_run : auto_wake fuel (h, w) = (Ok tt, (h1, w1)).
Proof.
  rewrite (auto_wake_spec B) by assumption.
  unfold h1, w1. now destruct (awake B (h, w)).
Qed.

Lemma tare_run (n : Z) :
  tare fuel n (h, w) =
  match rbind (median (frames_values B (line w) (Z.to_nat n) (reads w1))) int
  with
  | inr v => (Ok v, (set_offset v h1, sampled B h1 (Z.to_nat n) w1))
  | inl e => (Raise e, (h1, sampled B h1 (Z.to_nat n) w1))
  end.
Proof.
  unfold tare. rewrite bind_eq, auto_wake_run.
  rewrite bind_eq, (sampling_raw B fuel Hfuel) by apply awake_responsive.
  unfold w1 at 1. rewrite awake_line. fold w1.
  destruct (rbind _ int) as [e|v]; reflexivity.
Qed.

Lemma calibrate_run (rw : num) (n : Z) :
  calibrate fuel rw n (h, w) =
  match rbind (median (map (fun r => r - offset h)
                         (frames_values B (line w) (Z.to_nat n) (reads w1))))
              (fun m => truediv m rw)
  with
  | inr q => (Ok (PyFloat q),
              (set_scale (PyFloat q) h1, sampled B h1 (Z.to_nat n) w1))
  | inl e => (Raise e, (h1, sampled B h1 (Z.to_nat n) w1))
  end.
Proof.
  unfold calibrate. rewrite bind_eq, auto_wake_run.
  rewrite bind_eq, (sampling_adjusted B fuel Hfuel) by apply awake_responsive.
  unfold w1 at 1. rewrite awake_line. fold w1.
  replace (offset h1) with (offset h) by (symmetry; apply (awake_attrs B h w)).
  destruct (rbind _ _) as [e|q]; reflexivity.
Qed.

Lemma get_weight_run :
  get_weight fuel (h, w) =
  (py_outcome (truediv (PyInt (frame_value B (line w) (reads w1) - offset h))
                       (scale h)),
   (h1, sampled B h1 1 w1)).
Proof.
  unfold get_weight. rewrite bind_eq, auto_wake_run.
  unfold with_lock. cbn [fst snd].
  rewrite bind_eq, (read_raw_frame B)
    by (assumption || apply awake_responsive).
  unfold attr. rewrite !bind_eq. cbn [fst snd log line reads trace].
  destruct (awake_attrs B h w) as (_ & _ & _ & Ho & Hs & _). fold h1 in Ho, Hs.
  rewrite Ho, Hs. unfold w1 at 1. rewrite awake_line. fold w1.
  unfold int_sub, sampled. cbn [frames_events frames_next].
  rewrite app_nil_r.
  destruct (truediv _ _) as [e|q]; cbn [py py_outcome raise ret];
    unfold raise, ret, log; cbn [fst snd line reads trace];
    rewrite <- !app_assoc; reflexivity.
Qed.

End Pipeline.

(** *** Scripted data lines *)

Lemma responsiveb_sound B n d :
  responsiveb B n d = true -> (forall i, (n <= i)%nat -> d i = LOW) ->
  responsive B d.
Proof.
  unfold responsiveb. intros Hb Hlow i.
  apply andb_prop in Hb. destruct Hb as [HB Hall].
  apply Nat.ltb_lt in HB.
  destruct (Nat.lt_ge_cases i n) as [Hi|Hi].
  - rewrite forallb_forall in Hall.
    specialize (Hall i). rewrite in_seq in Hall.
    destruct (andb_prop _ _ (Hall ltac:(lia))) as [Hl Hk].
    exists (busy_polls B d i). split.
    + now apply Nat.ltb_lt.
    + now destruct (d (i + busy_polls B d i)%nat).
  - exists 0%nat. split; [assumption|]. rewrite Nat.add_0_r. now apply Hlow.
Qed.

Lemma script_responsive B ls :
  responsiveb B (length ls) (script ls) = true -> responsive B (script ls).
Proof.
  intros Hb. apply (responsiveb_sound B (length ls)); [assumption|].
  intros i Hi. unfold script. now apply nth_overflow.
Qed.

(** Closes [responsive B (script ls)] on a concrete script. *)
Ltac scripted := apply script_responsive; vm_compute; reflexivity.

(** Every 24-bit pattern can be put on the line. *)
Lemma bits_msb_length n p : length (bits_msb n p) = n.
Proof. induction n as [|n IH]; cbn [bits_msb length]; congruence. Qed.

Lemma bits_value_msb n p :
  bits_value (bits_msb n p) = p mod 2 ^ Z.of_nat n.
Proof.
  induction n as [|n IH].
  - cbn. now rewrite Z.mod_1_r.
  - cbn [bits_msb bits_value]. rewrite bits_msb_length, IH.
    rewrite Nat2Z.inj_succ, Z.pow_succ_r by lia.
    rewrite (Z.mul_comm 2), Z.rem_mul_r by lia.
    rewrite <- Z.testbit_spec' by lia.
    destruct (Z.testbit p (Z.of_nat n)); cbn [bit Z.b2z]; lia.
Qed.

Lemma frame_pattern_script (p : Z) :
  0 <= p < 2 ^ 24 -> frame_pattern 1 (script (frame_levels p)) 0 = p.
Proof.
  intros Hp. unfold frame_pattern.
  change (levels_at (script (frame_levels p))
            (0 + busy_polls 1 (script (frame_levels p)) 0 + 1) 24)
    with (bits_msb 24 p).
  rewrite bits_value_msb. apply Z.mod_small. exact Hp.
Qed.

(* ================================================================= *)
(** ** Verified properties of the driver *)

(** C1. The raw-frame read accumulates a 24-bit unsigned pattern [p] (the
    levels sampled after the ready poll, most significant bit first) and
    returns it reinterpreted as two's complement: [(p & 0x7FFFFF) - 0x800000]
    when bit 23 of [p] is set, [p] unchanged otherwise; equivalently
    [p - 0x1000000] when bit 23 is set. *)
Theorem read_raw_twos_complement (B fuel : nat) (h : obj) (w : world)
    (Hline : responsive B (line w)) (Hfuel : (B <= fuel)%nat) :
  let k := busy_polls B (line w) (reads w) in
  let polled :=
    (h, mkWorld (line w) (reads w + k + 1) (trace w ++ poll_events (dt h) k)) in
  let p := frame_pattern B (line w) (reads w) in
  wait_ready fuel (h, w) = (Ok tt, polled)
  /\ fst (read_bits 24 0 polled) = Ok p
  /\ 0 <= p < 2 ^ 24
  /\ fst (_read_raw fuel (h, w)) =
     Ok (if Z.testbit p 23 then Z.land p 0x7FFFFF - 0x800000 else p)
  /\ (Z.testbit p 23 = true ->
      fst (_read_raw fuel (h, w)) = Ok (p - 0x1000000))
  /\ (Z.testbit p 23 = false -> fst (_read_raw fuel (h, w)) = Ok p).
Proof.
  intros k polled p.
  destruct (responsive_busy_polls B (line w) (reads w) Hline) as [Hlt Hlow].
  pose proof (frame_pattern_range B (line w) (reads w)) as Hp. fold p in Hp.
  assert (Hraw : fst (_read_raw fuel (h, w)) = Ok (twos_complement p))
    by now rewrite (read_raw_spec B).
  repeat apply conj; try apply Hp.
  - now apply wait_ready_spec.
  - unfold polled. rewrite read_bits_spec. cbn [fst line reads].
    rewrite Z.mul_0_l, Z.add_0_l. reflexivity.
  - now rewrite Hraw, twos_complement_masked.
  - intros Hbit. now rewrite Hraw, twos_complement_24, Hbit.
  - intros Hbit. now rewrite Hraw, twos_complement_24, Hbit.
Qed.

Lemma read_raw_twos_complement_witness :
  responsive 27 (line (Bench.chip 2 [0xFFFFFF]))
  /\ (27 <= 40)%nat
  /\ fst (_read_raw 40 (Bench.hx, Bench.chip 2 [0xFFFFFF])) = Ok (-1).
Proof.
  assert (Hr : responsive 27 (line (Bench.chip 2 [0xFFFFFF])))
    by scripted.
  assert (Hf : (27 <= 40)%nat) by lia.
  split; [exact Hr|split; [exact Hf|]].
  destruct (read_raw_twos_complement 27 40 Bench.hx _ Hr Hf)
    as (_ & _ & _ & _ & Hneg & _).
  apply Hneg. vm_compute. reflexivity.
Defined.

(** C2. After the 24 data-bit clock pulses (each followed by a sample of the
    data line), the raw-frame read emits exactly [N] further clock high/low
    pulse pairs and nothing else, where [N] is 1 for gain 128, 3 for gain 64
    and 2 for gain 32. *)
Theorem read_raw_trailing_pulses (B fuel : nat) (h : obj) (w : world)
    (Hline : responsive B (line w)) (Hfuel : (B <= fuel)%nat) :
  let k := busy_polls B (line w) (reads w) in
  let bits := levels_at (line w) (reads w + k + 1) 24 in
  let N := gain_pulses (_gain h) in
  trace (snd (snd (_read_raw fuel (h, w)))) =
    trace w ++ poll_events (dt h) k
            ++ data_events (sck h) (dt h) bits
            ++ concat (repeat [Output (sck h) HIGH; Output (sck h) LOW] N)
  /\ length bits = 24%nat
  /\ rising_edges (sck h) (data_events (sck h) (dt h) bits) = 24%nat
  /\ (_gain h = 128 -> N = 1%nat)
  /\ (_gain h = 64 -> N = 3%nat)
  /\ (_gain h = 32 -> N = 2%nat).
Proof.
  intros k bits N. repeat apply conj.
  - now rewrite (read_raw_spec B).
  - apply levels_at_length.
  - rewrite rising_edges_data. apply levels_at_length.
  - unfold N. now intros ->.
  - unfold N. now intros ->.
  - unfold N. now intros ->.
Qed.

Lemma read_raw_trailing_pulses_witness :
  responsive 27 (line (Bench.chip 1 [5]))
  /\ (27 <= 27)%nat
  /\ trace (snd (snd (_read_raw 27 (set_gain 64 Bench.hx, Bench.chip 1 [5]))))
     = [Input 5 HIGH; Sleep 10000; Input 5 LOW]
       ++ data_events 6 5 (bits_msb 24 5)
       ++ [Output 6 HIGH; Output 6 LOW; Output 6 HIGH; Output 6 LOW;
           Output 6 HIGH; Output 6 LOW].
Proof.
  assert (Hr : responsive 27 (line (Bench.chip 1 [5])))
    by scripted.
  assert (Hf : (27 <= 27)%nat) by lia.
  split; [exact Hr|split; [exact Hf|]].
  destruct (read_raw_trailing_pulses 27 27 (set_gain 64 Bench.hx) _ Hr Hf)
    as (Htrace & _).
  rewrite Htrace. vm_compute. reflexivity.
Defined.

(** C3. For every positive sample count [n], [tare(n)] (after waking the
    chip if it was powered down) reads exactly [n] raw frames in sequence
    under one acquisition of the lock, sets [offset] to the integer median
    of the values read and returns it; with values [10,12,11,1000,9] the
    offset becomes 11. *)
Theorem tare_spec (B fuel : nat) (n : Z) (h : obj) (w : world)
    (Hline : responsive B (line w)) (Hfuel : (B <= fuel)%nat) (Hn : 0 < n) :
  let s1 := awake B (h, w) in
  let vs := frames_values B (line w) (Z.to_nat n) (reads (snd s1)) in
  let w2 := sampled B (fst s1) (Z.to_nat n) (snd s1) in
  Z.of_nat (length vs) = n
  /\ rbind (median vs) int = inr (int_median vs)
  /\ tare fuel n (h, w) =
     (Ok (int_median vs), (set_offset (int_median vs) (fst s1), w2))
  /\ rising_edges (sck h) (trace w2) =
     (rising_edges (sck h) (trace (snd s1))
      + Z.to_nat n * (24 + gain_pulses (_gain h)))%nat
  /\ (vs = [10; 12; 11; 1000; 9] ->
      offset (fst (snd (tare fuel n (h, w)))) = 11).
Proof.
  intros s1 vs w2.
  assert (Hlen : length vs = Z.to_nat n) by apply frames_values_length.
  assert (Hmed : rbind (median vs) int = inr (int_median vs)).
  { apply (median_int (2 ^ 23)).
    - destruct vs; [simpl in Hlen; lia|discriminate].
    - lia.
    - eapply Forall_impl; [|apply frames_values_range].
      cbv beta. intros v Hv. lia. }
  assert (Htare : tare fuel n (h, w) =
            (Ok (int_median vs), (set_offset (int_median vs) (fst s1), w2))).
  { rewrite (tare_run B fuel Hfuel h w Hline n).
    fold s1. fold vs. now rewrite Hmed. }
  destruct (awake_attrs B h w) as (_ & Hsck & Hgain & _).
  fold s1 in Hsck, Hgain.
  repeat apply conj.
  - lia.
  - exact Hmed.
  - exact Htare.
  - unfold w2. now rewrite <- Hsck, rising_edges_sampled, Hgain.
  - intros Hvs. rewrite Htare, Hvs. reflexivity.
Qed.

Lemma tare_spec_witness :
  responsive 27 (line (Bench.chip 1 [10; 12; 11; 1000; 9]))
  /\ (27 <= 27)%nat
  /\ 0 < 5
  /\ fst (tare 27 5 (Bench.hx, Bench.chip 1 [10; 12; 11; 1000; 9])) = Ok 11
  /\ offset (fst (snd (tare 27 5
                         (Bench.hx, Bench.chip 1 [10; 12; 11; 1000; 9])))) = 11.
Proof.
  assert (Hr : responsive 27 (line (Bench.chip 1 [10; 12; 11; 1000; 9])))
    by scripted.
  assert (Hf : (27 <= 27)%nat) by lia.
  assert (Hn : 0 < 5) by lia.
  split; [exact Hr|split; [exact Hf|split; [exact Hn|]]].
  destruct (tare_spec 27 27 5 Bench.hx _ Hr Hf Hn) as (_ & _ & Hrun & _ & Hex).
  split.
  - rewrite Hrun. vm_compute. reflexivity.
  - apply Hex. vm_compute. reflexivity.
Defined.

(** C4. For every positive sample count [n] and nonzero reference weight
    [rw], [calibrate(rw, n)] reads exactly [n] raw frames, subtracts the
    current offset from each, sets [scale] to the value of
    [median(adjusted) / rw] and returns it, leaving [offset] unchanged; with
    adjusted values [198,202,200] and [rw = 100] the scale becomes [2.0]. *)
Theorem calibrate_spec (B fuel : nat) (rw : num) (n : Z) (h : obj) (w : world)
    (Hline : responsive B (line w)) (Hfuel : (B <= fuel)%nat)
    (Hn : 0 < n) (Hrw : is_zero rw = false) :
  let s1 := awake B (h, w) in
  let raws := frames_values B (line w) (Z.to_nat n) (reads (snd s1)) in
  let vs := map (fun r => r - offset h) raws in
  let w2 := sampled B (fst s1) (Z.to_nat n) (snd s1) in
  Z.of_nat (length raws) = n
  /\ calibrate fuel rw n (h, w) =
     match rbind (median vs) (fun m => truediv m rw) with
     | inr q => (Ok (PyFloat q), (set_scale (PyFloat q) (fst s1), w2))
     | inl e => (Raise e, (fst s1, w2))
     end
  /\ offset (fst (snd (calibrate fuel rw n (h, w)))) = offset h
  /\ rising_edges (sck h) (trace w2) =
     (rising_edges (sck h) (trace (snd s1))
      + Z.to_nat n * (24 + gain_pulses (_gain h)))%nat
  /\ (Z.abs (offset h) < 2 ^ 50 -> moderate rw ->
      exists m, median vs = inr m
        /\ calibrate fuel rw n (h, w) =
           (Ok (PyFloat (to_float m / to_float rw)),
            (set_scale (PyFloat (to_float m / to_float rw)) (fst s1), w2)))
  /\ (vs = [198; 202; 200] -> rw = PyInt 100 ->
      fst (calibrate fuel rw n (h, w)) = Ok (PyFloat 2)).
Proof.
  intros s1 raws vs w2.
  assert (Hlen : length raws = Z.to_nat n) by apply frames_values_length.
  assert (Hrun := calibrate_run B fuel Hfuel h w Hline rw n).
  fold s1 in Hrun. fold raws in Hrun. fold vs in Hrun. fold w2 in Hrun.
  destruct (awake_attrs B h w) as (_ & Hsck & Hgain & Hoff & _).
  fold s1 in Hsck, Hgain, Hoff.
  repeat apply conj.
  - lia.
  - exact Hrun.
  - rewrite Hrun. now destruct (rbind _ _).
  - unfold w2. now rewrite <- Hsck, rising_edges_sampled, Hgain.
  - intros Ho Hm.
    destruct (median_moderate (2 ^ 50 + 2 ^ 23) vs) as (m & Hmed & Hmm).
    + unfold vs. destruct raws; [simpl in Hlen; lia|discriminate].
    + lia.
    + unfold vs. rewrite Forall_map.
      eapply Forall_impl; [|apply frames_values_range].
      cbv beta. intros v Hv. lia.
    + exists m. split; [exact Hmed|].
      rewrite Hrun, Hmed. cbn [rbind].
      now rewrite truediv_moderate.
  - intros Hvs ->. rewrite Hrun, Hvs. reflexivity.
Qed.

Lemma calibrate_spec_witness :
  responsive 27 (line (Bench.chip 1 [209; 213; 211]))
  /\ (27 <= 27)%nat
  /\ 0 < 3
  /\ is_zero (PyInt 100) = false
  /\ calibrate 27 (PyInt 100) 3
       (set_offset 11 Bench.hx, Bench.chip 1 [209; 213; 211])
     = (Ok (PyFloat 2),
        (set_scale (PyFloat 2) (set_offset 11 Bench.hx),
         sampled 27 (set_offset 11 Bench.hx) 3
           (Bench.chip 1 [209; 213; 211]))).
Proof.
  assert (Hr : responsive 27 (line (Bench.chip 1 [209; 213; 211])))
    by scripted.
  assert (Hf : (27 <= 27)%nat) by lia.
  assert (Hn : 0 < 3) by lia.
  assert (Hz : is_zero (PyInt 100) = false) by reflexivity.
  split; [exact Hr|split; [exact Hf|split; [exact Hn|split; [exact Hz|]]]].
  destruct (calibrate_spec 27 27 (PyInt 100) 3 (set_offset 11 Bench.hx) _
              Hr Hf Hn Hz) as (_ & Hrun & _).
  rewrite Hrun. reflexivity.
Defined.

(** C5. For every state with offset [o] and nonzero scale [s],
    [get_weight()] (after waking the chip if it was powered down) takes
    exactly one raw frame [r] and returns the floating-point value of
    [(r - o) / s], leaving offset, scale and gain unchanged; with [o = 11],
    [s = 2.0] and [r = 111] it returns [50.0]. *)
Theorem get_weight_spec (B fuel : nat) (h : obj) (w : world)
    (Hline : responsive B (line w)) (Hfuel : (B <= fuel)%nat)
    (Hs : is_zero (scale h) = false) :
  let s1 := awake B (h, w) in
  let r := frame_value B (line w) (reads (snd s1)) in
  let w2 := sampled B (fst s1) 1 (snd s1) in
  get_weight fuel (h, w) =
    (py_outcome (truediv (PyInt (r - offset h)) (scale h)), (fst s1, w2))
  /\ offset (fst s1) = offset h
  /\ scale (fst s1) = scale h
  /\ _gain (fst s1) = _gain h
  /\ rising_edges (sck h) (trace w2) =
     (rising_edges (sck h) (trace (snd s1))
      + 1 * (24 + gain_pulses (_gain h)))%nat
  /\ (Z.abs (offset h) < 2 ^ 51 -> moderate (scale h) ->
      fst (get_weight fuel (h, w)) =
      Ok (Z2float (r - offset h) / to_float (scale h))%float)
  /\ (offset h = 11 -> scale h = PyFloat 2 -> r = 111 ->
      fst (get_weight fuel (h, w)) = Ok 50%float).
Proof.
  intros s1 r w2.
  assert (Hrun := get_weight_run B fuel Hfuel h w Hline).
  fold s1 in Hrun. fold r in Hrun. fold w2 in Hrun.
  destruct (awake_attrs B h w) as (_ & Hsck & Hgain & Hoff & Hscale & _).
  fold s1 in Hsck, Hgain, Hoff, Hscale.
  repeat apply conj; try assumption.
  - unfold w2. now rewrite <- Hsck, rising_edges_sampled, Hgain.
  - intros Ho Hm. rewrite Hrun. cbn [fst].
    rewrite truediv_moderate; [reflexivity| |assumption|assumption].
    cbn [moderate]. pose proof (frame_value_range B (line w) (reads (snd s1))).
    fold r in H. lia.
  - intros Ho Hsc Hr. rewrite Hrun, Ho, Hsc, Hr. reflexivity.
Qed.

Lemma get_weight_spec_witness :
  responsive 27 (line (Bench.chip 1 [111]))
  /\ (27 <= 27)%nat
  /\ is_zero (PyFloat 2) = false
  /\ fst (get_weight 27 (set_scale (PyFloat 2) (set_offset 11 Bench.hx),
                         Bench.chip 1 [111])) = Ok 50%float.
Proof.
  assert (Hr : responsive 27 (line (Bench.chip 1 [111])))
    by scripted.
  assert (Hf : (27 <= 27)%nat) by lia.
  assert (Hz : is_zero (PyFloat 2) = false) by reflexivity.
  split; [exact Hr|split; [exact Hf|split; [exact Hz|]]].
  destruct (get_weight_spec 27 27
              (set_scale (PyFloat 2) (set_offset 11 Bench.hx)) _ Hr Hf Hz)
    as (_ & _ & _ & _ & _ & _ & Hex).
  apply Hex; vm_compute; reflexivity.
Defined.

(** C6, as the code has it. A zero reference weight never yields a scale:
    [calibrate] raises and leaves [scale] unchanged.  The error is
    [ZeroDivisionError] when at least one sample is taken (the offset being
    below [2^50] in magnitude, so that the adjusted median converts to a
    float), and [StatisticsError] when the sample count is zero or less,
    the median being evaluated before the division. *)
Theorem calibrate_zero_reference (B fuel : nat) (rw : num) (n : Z)
    (h : obj) (w : world)
    (Hline : responsive B (line w)) (Hfuel : (B <= fuel)%nat)
    (Hrw : is_zero rw = true) :
  let s1 := awake B (h, w) in
  let w2 := sampled B (fst s1) (Z.to_nat n) (snd s1) in
  (exists e, calibrate fuel rw n (h, w) = (Raise e, (fst s1, w2)))
  /\ scale (fst (snd (calibrate fuel rw n (h, w)))) = scale h
  /\ (0 < n -> Z.abs (offset h) < 2 ^ 50 ->
      fst (calibrate fuel rw n (h, w)) = Raise ZeroDivisionError)
  /\ (n <= 0 -> fst (calibrate fuel rw n (h, w)) = Raise StatisticsError).
Proof.
  intros s1 w2.
  assert (Hrun := calibrate_run B fuel Hfuel h w Hline rw n).
  fold s1 in Hrun. fold w2 in Hrun.
  set (vs := map (fun r => r - offset h)
               (frames_values B (line w) (Z.to_nat n) (reads (snd s1)))) in *.
  destruct (awake_attrs B h w) as (_ & _ & _ & _ & Hscale & _).
  fold s1 in Hscale.
  assert (Hraise : exists e, rbind (median vs) (fun m => truediv m rw) = inl e).
  { destruct (median vs) as [e|m]; cbn [rbind].
    - now exists e.
    - apply truediv_by_zero, Hrw. }
  destruct Hraise as [e He]. rewrite He in Hrun.
  repeat apply conj.
  - now exists e.
  - now rewrite Hrun.
  - intros Hn Ho.
    destruct (median_moderate (2 ^ 50 + 2 ^ 23) vs) as (m & Hmed & Hmm).
    + unfold vs.
      rewrite <- length_zero_iff_nil, length_map, frames_values_length.
      lia.
    + lia.
    + unfold vs. rewrite Forall_map.
      eapply Forall_impl; [|apply frames_values_range].
      cbv beta. intros v Hv. lia.
    + rewrite Hmed in He. cbn [rbind] in He.
      destruct (truediv_by_zero m rw Hrw) as [_ Hzd].
      rewrite (Hzd Hmm) in He. rewrite Hrun. cbn [fst]. congruence.
  - intros Hn. rewrite Hrun. cbn [fst].
    unfold vs in He. replace (Z.to_nat n) with 0%nat in He by lia.
    cbn in He. congruence.
Qed.

Lemma calibrate_zero_reference_witness :
  responsive 27 (line (Bench.chip 1 [209; 213; 211]))
  /\ (27 <= 27)%nat
  /\ is_zero (PyFloat 0) = true
  /\ fst (calibrate 27 (PyFloat 0) 3
            (Bench.hx, Bench.chip 1 [209; 213; 211]))
     = Raise ZeroDivisionError
  /\ scale (fst (snd (calibrate 27 (PyFloat 0) 3
                        (Bench.hx, Bench.chip 1 [209; 213; 211]))))
     = PyInt 1.
Proof.
  assert (Hr : responsive 27 (line (Bench.chip 1 [209; 213; 211])))
    by scripted.
  assert (Hf : (27 <= 27)%nat) by lia.
  assert (Hz : is_zero (PyFloat 0) = true) by reflexivity.
  split; [exact Hr|split; [exact Hf|split; [exact Hz|]]].
  destruct (calibrate_zero_reference 27 27 (PyFloat 0) 3 Bench.hx _ Hr Hf Hz)
    as (_ & Hscale & Hzd & _).
  split.
  - apply Hzd; [lia|reflexivity].
  - exact Hscale.
Defined.

(** C6, as stated, fails: with no samples the error raised for a zero
    reference weight is [StatisticsError], not a division by zero. *)
Lemma calibrate_zero_reference_no_samples :
  is_zero (PyFloat 0) = true
  /\ fst (calibrate 1 (PyFloat 0) 0 (Bench.hx, Bench.chip 0 []))
     = Raise StatisticsError
  /\ fst (calibrate 1 (PyFloat 0) 0 (Bench.hx, Bench.chip 0 []))
     <> Raise ZeroDivisionError.
Proof.
  repeat apply conj; [reflexivity|reflexivity|].
  intros H. vm_compute in H. discriminate H.
Qed.

(** C7, as the code has it. For every gain [v] outside [{128, 64, 32}], the
    gain setter raises [ValueError] at once and leaves the whole state (the
    current gain in particular) and the lines untouched; [__init__] raises
    [ValueError] at once, before any GPIO call and before the gain, offset,
    scale and power-down attributes are assigned, but after the two pin
    numbers have been stored in the instance. *)
Theorem invalid_gain_rejected (fuel : nat) (v dt_pin sck_pin : Z)
    (h : obj) (w : world)
    (H128 : v <> 128) (H64 : v <> 64) (H32 : v <> 32) :
  gain_setter fuel v (h, w) = (Raise ValueError, (h, w))
  /\ _gain (fst (snd (gain_setter fuel v (h, w)))) = _gain h
  /\ __init__ fuel dt_pin sck_pin v (h, w) =
     (Raise ValueError,
      (mkObj dt_pin sck_pin (_gain h) (offset h) (scale h) (_power_down h), w)).
Proof.
  assert (Hv : valid_gain v = false).
  { unfold valid_gain.
    apply Z.eqb_neq in H128, H64, H32. now rewrite H128, H64, H32. }
  assert (Hset : gain_setter fuel v (h, w) = (Raise ValueError, (h, w))).
  { unfold gain_setter. now rewrite Hv. }
  repeat apply conj.
  - exact Hset.
  - now rewrite Hset.
  - unfold __init__, assign. rewrite !bind_eq. cbn [fst snd].
    now rewrite Hv.
Qed.

Lemma invalid_gain_rejected_witness :
  100 <> 128 /\ 100 <> 64 /\ 100 <> 32
  /\ gain_setter 0 100 (Bench.hx, Bench.chip 0 [])
     = (Raise ValueError, (Bench.hx, Bench.chip 0 []))
  /\ fst (__init__ 0 17 27 100 (Bench.hx, Bench.chip 0 []))
     = Raise ValueError
  /\ trace (snd (snd (__init__ 0 17 27 100 (Bench.hx, Bench.chip 0 []))))
     = [].
Proof.
  assert (H128 : 100 <> 128) by discriminate.
  assert (H64 : 100 <> 64) by discriminate.
  assert (H32 : 100 <> 32) by discriminate.
  destruct (invalid_gain_rejected 0 100 17 27 Bench.hx (Bench.chip 0 [])
              H128 H64 H32) as (Hset & _ & Hinit).
  repeat apply conj; try assumption.
  - now rewrite Hinit.
  - now rewrite Hinit.
Defined.

(** C7, as stated, fails for construction: when [__init__] raises for an
    invalid gain, the two pin attributes have already been assigned. *)
Lemma init_invalid_gain_assigns_pins :
  __init__ 0 17 27 100 (Bench.hx, Bench.chip 0 [])
  = (Raise ValueError, (mkObj 17 27 128 0 (PyInt 1) false, Bench.chip 0 []))
  /\ snd (__init__ 0 17 27 100 (Bench.hx, Bench.chip 0 []))
     <> (Bench.hx, Bench.chip 0 []).
Proof.
  split; [reflexivity|].
  intros H. apply (f_equal (fun s => dt (fst s))) in H.
  vm_compute in H. discriminate H.
Qed.

(** C8, as the code has it. Reading the gain and reading the power-down flag
    return the stored value and have no side effect in any state: powered
    down or not, the instance and the lines are left as they were (the
    accessors do not wake the chip). *)
Theorem getters_pure (h : obj) (w : world) :
  gain (h, w) = (Ok (_gain h), (h, w))
  /\ power_down (h, w) = (Ok (_power_down h), (h, w)).
Proof. split; reflexivity. Qed.

(** C8, as stated, fails: on a powered-down instance the accessors leave
    [_power_down] true and issue no event. *)
Lemma getters_do_not_wake :
  let s := (set_power_down true Bench.hx, Bench.chip 0 []) in
  _power_down (fst s) = true
  /\ _power_down (fst (snd (gain s))) = true
  /\ _power_down (fst (snd (power_down s))) = true
  /\ _power_down (fst (snd (gain s))) <> false
  /\ trace (snd (snd (gain s))) = []
  /\ trace (snd (snd (power_down s))) = [].
Proof. repeat apply conj; try reflexivity. discriminate. Qed.

(** C9. Setting the power-down state to its current value issues no event
    and leaves the state unchanged.  Active -> PoweredDown: under the lock,
    the clock is driven low, then high, and a sleep of 60 microseconds is
    requested with the clock high before the flag is set.  PoweredDown ->
    Active: under the lock, the clock is driven low and exactly one raw
    frame is read and discarded; then the flag is cleared.  (Only this last
    transition waits for the chip.) *)
Theorem power_down_transitions (B fuel : nat) (v : bool) (h : obj) (w : world)
    (Hchip : v = false -> _power_down h = true ->
             responsive B (line w) /\ (B <= fuel)%nat) :
  power_down_setter fuel v (h, w) =
    (Ok tt,
     if Bool.eqb v (_power_down h) then (h, w)
     else if v then
       (set_power_down true h,
        mkWorld (line w) (reads w)
          (trace w ++ [Acquire; Output (sck h) LOW; Output (sck h) HIGH;
                       Sleep 60; Release]))
     else
       (set_power_down false h,
        mkWorld (line w) (frame_next B (line w) (reads w))
          (trace w ++ [Acquire; Output (sck h) LOW]
                   ++ frame_events B h (line w) (reads w)
                   ++ [Release])))
  /\ rising_edges (sck h) (frame_events B h (line w) (reads w))
     = (24 + gain_pulses (_gain h))%nat
  /\ _power_down (fst (snd (power_down_setter fuel v (h, w)))) = v.
Proof.
  assert (Hrun : power_down_setter fuel v (h, w) =
    (Ok tt,
     if Bool.eqb v (_power_down h) then (h, w)
     else if v then
       (set_power_down true h,
        log [Acquire; Output (sck h) LOW; Output (sck h) HIGH;
             Sleep 60; Release] w)
     else (set_power_down false h, woken_world B h w))).
  { destruct v, (_power_down h) eqn:Hpd; cbn [Bool.eqb].
    - now apply power_down_setter_same.
    - now apply power_down_setter_sleep.
    - destruct (Hchip eq_refl eq_refl) as [Hr Hf].
      now apply (power_down_setter_wake B).
    - now apply power_down_setter_same. }
  repeat apply conj.
  - exact Hrun.
  - apply rising_edges_frame.
  - rewrite Hrun. cbn [snd].
    destruct v, (_power_down h) eqn:Hpd; cbn [Bool.eqb fst]; auto.
Qed.

Lemma power_down_transitions_witness :
  (false = false -> _power_down (set_power_down true Bench.hx) = true ->
   responsive 27 (line (Bench.chip 1 [7])) /\ (27 <= 27)%nat)
  /\ power_down_setter 27 false
       (set_power_down true Bench.hx, Bench.chip 1 [7])
     = (Ok tt,
        (Bench.hx,
         mkWorld (line (Bench.chip 1 [7])) 26
           ([Acquire; Output 6 LOW; Input 5 HIGH; Sleep 10000; Input 5 LOW]
            ++ data_events 6 5 (bits_msb 24 7)
            ++ [Output 6 HIGH; Output 6 LOW; Release]))).
Proof.
  assert (Hr : responsive 27 (line (Bench.chip 1 [7])))
    by scripted.
  assert (Hf : (27 <= 27)%nat) by lia.
  split; [intros _ _; split; [exact Hr|exact Hf]|].
  destruct (power_down_transitions 27 27 false (set_power_down true Bench.hx)
              (Bench.chip 1 [7]) (fun _ _ => conj Hr Hf)) as (Hrun & _).
  rewrite Hrun. reflexivity.
Defined.

(** C10. With a sample count of zero, [tare] and [calibrate] read no frame
    under the lock (it is acquired and released at once) and raise
    [StatisticsError], the median of no data; offset and scale are left
    unchanged and no number is returned.  (A powered-down chip is woken
    first, as for any other sample count.) *)
Theorem zero_samples (B fuel : nat) (rw : num) (h : obj) (w : world)
    (Hchip : _power_down h = true ->
             responsive B (line w) /\ (B <= fuel)%nat) :
  let s1 := awake B (h, w) in
  let w2 := mkWorld (line w) (reads (snd s1))
              (trace (snd s1) ++ [Acquire; Release]) in
  tare fuel 0 (h, w) = (Raise StatisticsError, (fst s1, w2))
  /\ calibrate fuel rw 0 (h, w) = (Raise StatisticsError, (fst s1, w2))
  /\ offset (fst s1) = offset h
  /\ scale (fst s1) = scale h
  /\ (_power_down h = false -> fst s1 = h /\ snd s1 = w).
Proof.
  intros s1 w2.
  assert (Hwake : auto_wake fuel (h, w) = (Ok tt, (fst s1, snd s1))).
  { unfold auto_wake, attr. rewrite bind_eq. cbn [fst].
    unfold s1, awake. cbn [fst snd].
    destruct (_power_down h) eqn:Hpd; [|reflexivity].
    destruct (Hchip eq_refl) as [Hr Hf].
    now apply (power_down_setter_wake B). }
  assert (Hw2 : forall h' : obj,
            (h', log [Release] (log [Acquire] (snd s1))) = (h', w2)).
  { intros h'. unfold w2, log. cbn [line reads trace].
    unfold s1. rewrite awake_line, <- app_assoc. reflexivity. }
  destruct (awake_attrs B h w) as (_ & _ & _ & Hoff & Hscale & _).
  fold s1 in Hoff, Hscale.
  repeat apply conj; try assumption.
  - unfold tare. rewrite bind_eq, Hwake.
    unfold with_lock. cbn. now rewrite Hw2.
  - unfold calibrate. rewrite bind_eq, Hwake.
    unfold with_lock. cbn. now rewrite Hw2.
  - intros Hpd. unfold s1. rewrite awake_active by assumption. now split.
Qed.

Lemma zero_samples_witness :
  (_power_down (set_power_down true Bench.hx) = true ->
   responsive 27 (line (Bench.chip 1 [7])) /\ (27 <= 27)%nat)
  /\ fst (tare 27 0 (set_power_down true Bench.hx, Bench.chip 1 [7]))
     = Raise StatisticsError
  /\ fst (calibrate 27 (PyFloat 100) 0
            (set_power_down true Bench.hx, Bench.chip 1 [7]))
     = Raise StatisticsError
  /\ fst (snd (tare 27 0 (set_power_down true Bench.hx, Bench.chip 1 [7])))
     = Bench.hx.
Proof.
  assert (Hr : responsive 27 (line (Bench.chip 1 [7])))
    by scripted.
  assert (Hf : (27 <= 27)%nat) by lia.
  split; [intros _; split; [exact Hr|exact Hf]|].
  destruct (zero_samples 27 27 (PyFloat 100) (set_power_down true Bench.hx)
              (Bench.chip 1 [7]) (fun _ => conj Hr Hf))
    as (Htare & Hcal & _).
  rewrite Htare, Hcal. repeat apply conj; reflexivity.
Defined.

(* ================================================================= *)
(** * Beyond the claims *)

Import Session.

(* ================================================================= *)
(** ** Further properties of the bit-transfer engine *)

(** The read, from what the line does at the current position only. *)
Lemma read_raw_local B fuel h w :
  (busy_polls B (line w) (reads w) < B)%nat ->
  line w (reads w + busy_polls B (line w) (reads w))%nat = LOW ->
  (B <= fuel)%nat ->
  _read_raw fuel (h, w) =
  (Ok (frame_value B (line w) (reads w)),
   (h, mkWorld (line w) (frame_next B (line w) (reads w))
         (trace w ++ frame_events B h (line w) (reads w)))).
Proof.
  intros Hlt Hlow Hfuel.
  unfold _read_raw. rewrite bind_eq, (wait_ready_spec B) by assumption.
  rewrite bind_eq, read_bits_spec. cbn [line reads trace].
  unfold attr at 1. rewrite bind_eq. cbn [fst].
  rewrite bind_eq, for_range_pulses. unfold ret, log.
  cbn [line reads trace]. rewrite Z.mul_0_l, Z.add_0_l.
  fold (frame_pattern B (line w) (reads w)).
  rewrite frame_value_decodes.
  unfold frame_next, frame_events.
  rewrite <- !app_assoc. do 3 f_equal. lia.
Qed.

(** *** Scripted lines, position by position *)

Lemma script_cons l ls i : script (l :: ls) (S i) = script ls i.
Proof. reflexivity. Qed.

Lemma levels_at_script_cons l ls i n :
  levels_at (script (l :: ls)) (S i) n = levels_at (script ls) i n.
Proof.
  unfold levels_at. rewrite <- seq_shift, map_map.
  apply map_ext. intros j. apply script_cons.
Qed.

Lemma levels_at_script ls : levels_at (script ls) 0 (length ls) = ls.
Proof.
  induction ls as [|l ls IH]; [reflexivity|].
  cbn [length]. rewrite levels_at_S, levels_at_script_cons, IH. reflexivity.
Qed.

Lemma levels_at_script_app pre ls tl :
  levels_at (script (pre ++ ls ++ tl)) (length pre) (length ls) = ls.
Proof.
  induction pre as [|l pre IH]; cbn [app length].
  - revert tl. induction ls as [|l ls IH]; intros tl; [reflexivity|].
    cbn [app length].
    rewrite levels_at_S, levels_at_script_cons, IH. reflexivity.
  - rewrite levels_at_script_cons. exact IH.
Qed.

Lemma busy_polls_script_cons B l ls i :
  busy_polls B (script (l :: ls)) (S i) = busy_polls B (script ls) i.
Proof.
  revert i. induction B as [|B IH]; intros i; [reflexivity|].
  cbn [busy_polls]. rewrite script_cons, IH. reflexivity.
Qed.

Lemma busy_polls_repeat k rest :
  busy_polls (S k) (script (repeat HIGH k ++ LOW :: rest)) 0 = k.
Proof.
  induction k as [|k IH]; [reflexivity|].
  cbn [repeat app]. change (busy_polls (S (S k)) ?d 0)
    with (S (busy_polls (S k) d 1)).
  now rewrite busy_polls_script_cons, IH.
Qed.

Lemma script_repeat_low k rest :
  script (repeat HIGH k ++ LOW :: rest) k = LOW.
Proof.
  induction k as [|k IH]; [reflexivity|].
  cbn [repeat app]. now rewrite script_cons.
Qed.

Lemma twos_complement_encode (v : Z) :
  - 2 ^ 23 <= v < 2 ^ 23 ->
  (if Z.testbit (v mod 2 ^ 24) 23 then v mod 2 ^ 24 - 0x1000000
   else v mod 2 ^ 24) = v.
Proof.
  intros Hv.
  assert (Hp : 0 <= v mod 2 ^ 24 < 2 ^ 24) by (apply Z.mod_pos_bound; lia).
  pose proof (sign_bit_24 _ Hp) as Hb.
  destruct (Z.lt_ge_cases v 0) as [Hneg|Hpos].
  - assert (Hm : v mod 2 ^ 24 = v + 2 ^ 24).
    { symmetry. apply (Z.mod_unique v (2 ^ 24) (-1)); lia. }
    rewrite Hm in *.
    assert (Hq : (v + 2 ^ 24) / 2 ^ 23 = 1).
    { symmetry. apply (Z.div_unique _ _ 1 (v + 2 ^ 23)); lia. }
    rewrite Hq in Hb.
    destruct (Z.testbit (v + 2 ^ 24) 23); cbn [Z.b2z] in Hb;
      [change 0x1000000 with (2 ^ 24); lia|discriminate].
  - rewrite Z.mod_small in * by lia.
    rewrite Z.div_small in Hb by lia.
    destruct (Z.testbit v 23); cbn [Z.b2z] in Hb; [discriminate|reflexivity].
Qed.

(** X1. Whatever the chip sends, the value [_read_raw] returns is a 24-bit
    signed integer. *)
Theorem read_raw_range (B fuel : nat) (h : obj) (w : world)
    (Hline : responsive B (line w)) (Hfuel : (B <= fuel)%nat) :
  exists v, fst (_read_raw fuel (h, w)) = Ok v /\ - 2 ^ 23 <= v < 2 ^ 23.
Proof.
  exists (frame_value B (line w) (reads w)). split.
  - now rewrite (read_raw_frame B).
  - apply frame_value_range.
Qed.

Lemma read_raw_range_witness :
  responsive 27 (line (Bench.chip 2 [0x800000]))
  /\ (27 <= 30)%nat
  /\ exists v, fst (_read_raw 30 (Bench.hx, Bench.chip 2 [0x800000])) = Ok v
               /\ - 2 ^ 23 <= v < 2 ^ 23.
Proof.
  assert (Hr : responsive 27 (line (Bench.chip 2 [0x800000]))) by scripted.
  assert (Hf : (27 <= 30)%nat) by lia.
  split; [exact Hr|split; [exact Hf|]].
  exact (read_raw_range 27 30 Bench.hx _ Hr Hf).
Defined.

(** X2. Round trip of the frame format: when the chip, after any number of
    busy polls, sends the 24-bit two's-complement pattern of a value [v] in
    [-2^23, 2^23), most significant bit first, [_read_raw] returns [v]. *)
Theorem read_raw_round_trip (polls fuel : nat) (v : Z) (h : obj)
    (Hv : - 2 ^ 23 <= v < 2 ^ 23) (Hfuel : (polls < fuel)%nat) :
  fst (_read_raw fuel (h, Bench.chip polls [v mod 2 ^ 24])) = Ok v.
Proof.
  set (p := v mod 2 ^ 24).
  assert (Hp : 0 <= p < 2 ^ 24) by (apply Z.mod_pos_bound; lia).
  assert (Hline : line (Bench.chip polls [p])
                  = script (repeat HIGH polls
                            ++ LOW :: bits_msb 24 p ++ [])).
  { unfold Bench.chip. cbn [line flat_map].
    unfold frame_levels. now rewrite <- !app_assoc. }
  assert (Hk : busy_polls (S polls) (line (Bench.chip polls [p])) 0 = polls)
    by (rewrite Hline; apply busy_polls_repeat).
  assert (Hreads : reads (Bench.chip polls [p]) = 0%nat) by reflexivity.
  rewrite (read_raw_local (S polls) fuel); rewrite ?Hreads, ?Hk; try lia.
  - cbn [fst]. unfold frame_value, frame_pattern. rewrite Hk.
    replace (levels_at (line (Bench.chip polls [p])) (0 + polls + 1) 24)
      with (bits_msb 24 p).
    + rewrite bits_value_msb. change (Z.of_nat 24) with 24.
      rewrite (Z.mod_small p) by exact Hp.
      f_equal. now apply twos_complement_encode.
    + rewrite Hline.
      change (repeat HIGH polls ++ LOW :: bits_msb 24 p ++ [])
        with (repeat HIGH polls ++ [LOW] ++ bits_msb 24 p ++ []).
      rewrite app_assoc.
      replace (0 + polls + 1)%nat with (length (repeat HIGH polls ++ [LOW]))
        by (rewrite length_app, repeat_length; cbn [length]; lia).
      pose proof (levels_at_script_app (repeat HIGH polls ++ [LOW])
                    (bits_msb 24 p) []) as Hl.
      rewrite bits_msb_length in Hl. now rewrite Hl.
  - rewrite Hline. cbn [Nat.add]. apply script_repeat_low.
Qed.

Lemma read_raw_round_trip_witness :
  - 2 ^ 23 <= -5 < 2 ^ 23
  /\ (3 < 4)%nat
  /\ fst (_read_raw 4 (Bench.hx, Bench.chip 3 [(-5) mod 2 ^ 24])) = Ok (-5).
Proof.
  assert (Hv : - 2 ^ 23 <= -5 < 2 ^ 23) by lia.
  assert (Hf : (3 < 4)%nat) by lia.
  split; [exact Hv|split; [exact Hf|]].
  exact (read_raw_round_trip 3 4 (-5) Bench.hx Hv Hf).
Defined.

Lemma wait_ready_never fuel : forall h w,
  (forall i, line w i = HIGH) ->
  wait_ready fuel (h, w) =
  (Blocked,
   (h, mkWorld (line w) (reads w + fuel)
         (trace w ++ concat (repeat [Input (dt h) HIGH; Sleep 10000] fuel)))).
Proof.
  induction fuel as [|fuel IH]; intros h w Hhigh.
  - cbn. rewrite Nat.add_0_r, app_nil_r. now destruct w.
  - cbn [wait_ready].
    unfold _is_ready, gpio_input, attr, bind, sample, ret, sleep, emit, log.
    cbn [fst snd line reads trace]. rewrite Hhigh. cbn [level_eqb].
    rewrite IH by exact Hhigh.
    cbn [fst snd line reads trace repeat concat].
    rewrite <- !app_assoc. cbn [app].
    replace (S (reads w) + fuel)%nat with (reads w + S fuel)%nat by lia.
    reflexivity.
Qed.

Lemma rising_edges_busy sck dt n :
  rising_edges sck (concat (repeat [Input dt HIGH; Sleep 10000] n)) = 0%nat.
Proof.
  induction n as [|n IH]; [reflexivity|].
  cbn [repeat concat]. rewrite rising_edges_app. exact IH.
Qed.

(** X3. There is no timeout: when the data line never goes low,
    [_read_raw] is still polling, one [sleep(0.01)] per poll, however many
    polls it is allowed, and it has not pulsed the clock; [get_weight] on
    an active chip is then stuck the same way, holding the lock. *)
Theorem never_ready_blocks (fuel : nat) (h : obj) (w : world)
    (Hhigh : forall i, line w i = HIGH) :
  let busy := concat (repeat [Input (dt h) HIGH; Sleep 10000] fuel) in
  _read_raw fuel (h, w) =
    (Blocked, (h, mkWorld (line w) (reads w + fuel) (trace w ++ busy)))
  /\ rising_edges (sck h) (trace w ++ busy) = rising_edges (sck h) (trace w)
  /\ (_power_down h = false ->
      get_weight fuel (h, w) =
      (Blocked,
       (h, mkWorld (line w) (reads w + fuel)
             (trace w ++ [Acquire] ++ busy)))).
Proof.
  intros busy. repeat apply conj.
  - unfold _read_raw. rewrite bind_eq, wait_ready_never by exact Hhigh.
    reflexivity.
  - rewrite rising_edges_app. unfold busy. rewrite rising_edges_busy. lia.
  - intros Hpd. unfold get_weight, auto_wake, attr.
    rewrite !bind_eq. cbn [fst]. rewrite Hpd.
    unfold with_lock, _read_raw. cbn [ret fst snd].
    rewrite !bind_eq, wait_ready_never by exact Hhigh.
    unfold log. cbn [line reads trace].
    now rewrite <- app_assoc.
Qed.

Lemma never_ready_blocks_witness :
  (forall i, line (mkWorld (fun _ => HIGH) 0 []) i = HIGH)
  /\ fst (_read_raw 50 (Bench.hx, mkWorld (fun _ => HIGH) 0 [])) = Blocked
  /\ reads (snd (snd (_read_raw 50 (Bench.hx, mkWorld (fun _ => HIGH) 0 []))))
     = 50%nat.
Proof.
  assert (Hhigh : forall i, line (mkWorld (fun _ => HIGH) 0 []) i = HIGH)
    by reflexivity.
  split; [exact Hhigh|].
  destruct (never_ready_blocks 50 Bench.hx _ Hhigh) as (Hrun & _).
  rewrite Hrun. split; reflexivity.
Defined.

(* ================================================================= *)
(** ** Gain control and construction *)

Lemma discard_read B fuel h w :
  responsive B (line w) -> (B <= fuel)%nat ->
  with_lock (_read_raw fuel ;; ret tt) (h, w) = (Ok tt, (h, sampled B h 1 w)).
Proof.
  intros Hr Hf. erewrite with_lock_ok.
  2:{ rewrite bind_eq, (read_raw_frame B) by assumption. reflexivity. }
  unfold sampled, log. cbn [line reads trace frames_events frames_next].
  now rewrite app_nil_r, <- !app_assoc.
Qed.

Lemma gain_setter_run B fuel v h w :
  responsive B (line w) -> (B <= fuel)%nat -> valid_gain v = true ->
  gain_setter fuel v (h, w) =
  (Ok tt,
   if v =? _gain h then (h, w)
   else (fst (awake B (set_gain v h, w)),
         sampled B (fst (awake B (set_gain v h, w))) 1
           (snd (awake B (set_gain v h, w))))).
Proof.
  intros Hr Hf Hv. unfold gain_setter. rewrite Hv. cbn [negb].
  unfold attr at 1. rewrite bind_eq. cbn [fst].
  destruct (v =? _gain h); [reflexivity|].
  unfold assign. rewrite bind_eq. cbn [fst snd].
  rewrite bind_eq, (auto_wake_spec B) by assumption.
  pose proof (awake_line B (set_gain v h) w) as Hl.
  destruct (awake B (set_gain v h, w)) as [h1 w1]. cbn [fst snd] in *.
  apply (discard_read B); [now rewrite Hl|assumption].
Qed.

(** X4. Setting a valid gain different from the current one stores it
    first, wakes the chip if it was powered down, and then reads and
    discards one frame under the lock whose trailing pulses are those of
    the new gain; setting the current gain does nothing at all.  Either
    way the getter then returns the value set, and offset and scale are
    untouched. *)
Theorem gain_setter_latches (B fuel : nat) (v : Z) (h : obj) (w : world)
    (Hline : responsive B (line w)) (Hfuel : (B <= fuel)%nat)
    (Hv : valid_gain v = true) :
  let s1 := awake B (set_gain v h, w) in
  let k := busy_polls B (line w) (reads (snd s1)) in
  let bits := levels_at (line w) (reads (snd s1) + k + 1) 24 in
  let s2 := snd (gain_setter fuel v (h, w)) in
  fst (gain_setter fuel v (h, w)) = Ok tt
  /\ (v = _gain h -> s2 = (h, w))
  /\ (v <> _gain h ->
      fst s2 = fst s1
      /\ trace (snd s2) =
         trace (snd s1) ++ [Acquire]
           ++ poll_events (dt h) k
           ++ data_events (sck h) (dt h) bits
           ++ pulse_events (sck h) (gain_pulses v)
           ++ [Release])
  /\ gain s2 = (Ok v, s2)
  /\ offset (fst s2) = offset h
  /\ scale (fst s2) = scale h.
Proof.
  intros s1 k bits s2.
  pose proof (gain_setter_run B fuel v h w Hline Hfuel Hv) as Hrun.
  fold s1 in Hrun.
  destruct (awake_attrs B (set_gain v h) w)
    as (Hdt & Hsck & Hgain & Hoff & Hscale & _).
  fold s1 in Hdt, Hsck, Hgain, Hoff, Hscale. cbn [set_gain dt sck _gain
    offset scale] in Hdt, Hsck, Hgain, Hoff, Hscale.
  pose proof (awake_line B (set_gain v h) w) as Hl. fold s1 in Hl.
  unfold s2. rewrite Hrun. cbn [fst snd].
  destruct (Z.eqb_spec v (_gain h)) as [Heq|Hne]; cbn [fst snd].
  - split; [reflexivity|]. split; [reflexivity|].
    split; [intros Hne; contradiction|].
    split; [|split; reflexivity].
    unfold gain, attr. cbn [fst]. now rewrite Heq.
  - split; [reflexivity|]. split; [intros Heq; contradiction|].
    split; [|split; [|split; assumption]].
    + intros _. split; [reflexivity|].
      unfold sampled. cbn [trace frames_events].
      unfold frame_events. rewrite Hdt, Hsck, Hgain, Hl.
      now rewrite app_nil_r, <- !app_assoc.
    + unfold gain, attr. cbn [fst]. now rewrite Hgain.
Qed.

Lemma gain_setter_latches_witness :
  responsive 27 (line (Bench.chip 1 [7; 9]))
  /\ (27 <= 27)%nat
  /\ valid_gain 64 = true
  /\ fst (gain (snd (gain_setter 27 64
                       (set_power_down true Bench.hx, Bench.chip 1 [7; 9]))))
     = Ok 64
  /\ rising_edges 6
       (trace (snd (snd (gain_setter 27 64
                 (set_power_down true Bench.hx, Bench.chip 1 [7; 9])))))
     = 54%nat.
Proof.
  assert (Hr : responsive 27 (line (Bench.chip 1 [7; 9]))) by scripted.
  assert (Hf : (27 <= 27)%nat) by lia.
  assert (Hv : valid_gain 64 = true) by reflexivity.
  split; [exact Hr|split; [exact Hf|split; [exact Hv|]]].
  destruct (gain_setter_latches 27 27 64 (set_power_down true Bench.hx)
              (Bench.chip 1 [7; 9]) Hr Hf Hv)
    as (_ & _ & Hneq & Hget & _).
  split.
  - now rewrite Hget.
  - destruct Hneq as [_ Htrace]; [discriminate|].
    rewrite Htrace. vm_compute. reflexivity.
Defined.

Lemma init_run B fuel dt_pin sck_pin g h w :
  responsive B (line w) -> (B <= fuel)%nat -> valid_gain g = true ->
  __init__ fuel dt_pin sck_pin g (h, w) =
  (Ok tt,
   (mkObj dt_pin sck_pin g 0 (PyInt 1) false,
    mkWorld (line w) (frame_next B (line w) (reads w))
      (trace w ++ [Setmode_BCM; Setup_in dt_pin; Setup_out sck_pin LOW]
               ++ frame_events B (mkObj dt_pin sck_pin g 0 (PyInt 1) false)
                    (line w) (reads w)))).
Proof.
  intros Hr Hf Hv. unfold __init__, assign, emit, attr.
  rewrite !bind_eq. cbn [fst snd]. rewrite Hv. cbn [negb].
  rewrite !bind_eq. cbn [fst snd set_dt set_sck set_gain set_offset set_scale
    set_power_down dt sck _gain offset scale _power_down].
  rewrite (read_raw_frame B) by assumption.
  unfold ret, log. cbn [line reads trace].
  now rewrite <- !app_assoc.
Qed.

(** X5. Construction with a valid gain never fails on a responsive chip:
    whatever the instance held before, it ends with the pins and gain
    given, offset 0, scale 1 and not powered down; the pins are set up
    (clock as an output, low) and exactly one frame is read and discarded,
    with the trailing pulses of the gain, without taking the lock. *)
Theorem init_constructs (B fuel : nat) (dt_pin sck_pin g : Z)
    (h : obj) (w : world)
    (Hline : responsive B (line w)) (Hfuel : (B <= fuel)%nat)
    (Hg : valid_gain g = true) :
  let hx := mkObj dt_pin sck_pin g 0 (PyInt 1) false in
  let frame := frame_events B hx (line w) (reads w) in
  __init__ fuel dt_pin sck_pin g (h, w) =
    (Ok tt,
     (hx, mkWorld (line w) (frame_next B (line w) (reads w))
            (trace w ++ [Setmode_BCM; Setup_in dt_pin; Setup_out sck_pin LOW]
                     ++ frame)))
  /\ rising_edges sck_pin frame = (24 + gain_pulses g)%nat
  /\ ~ In Acquire frame.
Proof.
  intros hx frame. repeat apply conj.
  - now apply init_run.
  - apply (rising_edges_frame B hx).
  - unfold frame, frame_events, poll_events, data_events, pulse_events.
    rewrite !in_app_iff, in_flat_map.
    intros [[Hin|Hin]|[Hin|Hin]].
    + apply in_concat in Hin. destruct Hin as (l & Hl & Hin).
      apply repeat_spec in Hl. subst l.
      cbn in Hin. intuition discriminate.
    + cbn in Hin. intuition discriminate.
    + destruct Hin as (l & _ & Hin). cbn in Hin. intuition discriminate.
    + apply in_concat in Hin. destruct Hin as (l & Hl & Hin).
      apply repeat_spec in Hl. subst l.
      cbn in Hin. intuition discriminate.
Qed.

Lemma init_constructs_witness :
  responsive 27 (line (Bench.chip 1 [3]))
  /\ (27 <= 27)%nat
  /\ valid_gain 32 = true
  /\ fst (snd (__init__ 27 17 27 32
                 (mkObj 0 0 0 99 (PyFloat 7) true, Bench.chip 1 [3])))
     = mkObj 17 27 32 0 (PyInt 1) false
  /\ rising_edges 27
       (trace (snd (snd (__init__ 27 17 27 32
                 (mkObj 0 0 0 99 (PyFloat 7) true, Bench.chip 1 [3])))))
     = 26%nat.
Proof.
  assert (Hr : responsive 27 (line (Bench.chip 1 [3]))) by scripted.
  assert (Hf : (27 <= 27)%nat) by lia.
  assert (Hg : valid_gain 32 = true) by reflexivity.
  split; [exact Hr|split; [exact Hf|split; [exact Hg|]]].
  destruct (init_constructs 27 27 17 27 32 (mkObj 0 0 0 99 (PyFloat 7) true)
              (Bench.chip 1 [3]) Hr Hf Hg) as (Hrun & _).
  rewrite Hrun. split; [reflexivity|]. vm_compute. reflexivity.
Defined.

(* ================================================================= *)
(** ** Whole sessions *)

(** *** The clock level, event list by event list *)

Lemma level_from_app sck l0 t1 t2 :
  level_from sck l0 (t1 ++ t2) = level_from sck (level_from sck l0 t1) t2.
Proof. unfold level_from. apply fold_left_app. Qed.

Lemma level_from_polls sck dt k l0 :
  level_from sck l0 (poll_events dt k) = l0.
Proof.
  unfold poll_events. rewrite level_from_app.
  induction k as [|k IH]; [reflexivity|].
  cbn [repeat concat]. rewrite level_from_app in *. exact IH.
Qed.

Lemma level_from_data sck dt ls : forall l0,
  level_from sck l0 (data_events sck dt ls) =
  match ls with [] => l0 | _ :: _ => Some LOW end.
Proof.
  induction ls as [|l ls IH]; intros l0; [reflexivity|].
  cbn [data_events flat_map]. fold (data_events sck dt ls).
  rewrite level_from_app, IH.
  unfold level_from. cbn [fold_left drives]. rewrite Z.eqb_refl.
  now destruct ls.
Qed.

Lemma level_from_pulses sck n :
  level_from sck (Some LOW) (pulse_events sck n) = Some LOW.
Proof.
  unfold pulse_events. induction n as [|n IH]; [reflexivity|].
  cbn [repeat concat]. rewrite level_from_app.
  unfold level_from at 2. cbn [fold_left drives]. rewrite Z.eqb_refl.
  exact IH.
Qed.

Lemma level_from_frame B h d i l0 :
  level_from (sck h) l0 (frame_events B h d i) = Some LOW.
Proof.
  unfold frame_events.
  rewrite !level_from_app, level_from_polls, level_from_data.
  unfold levels_at. cbn [seq map]. apply level_from_pulses.
Qed.

Lemma level_from_frames B h d n : forall i,
  level_from (sck h) (Some LOW) (frames_events B h d n i) = Some LOW.
Proof.
  induction n as [|n IH]; intros i; [reflexivity|].
  cbn [frames_events]. now rewrite level_from_app, level_from_frame.
Qed.

(** *** The lock, event list by event list *)

Lemma guarded_app t1 : forall b t2,
  guarded b (t1 ++ t2) =
  match guarded b t1 with
  | Some b' => guarded b' t2
  | None => None
  end.
Proof.
  induction t1 as [|e t1 IH]; intros b t2; [reflexivity|].
  cbn [app guarded]. destruct e, b; try reflexivity; apply IH.
Qed.

Lemma guarded_polls dt k : guarded true (poll_events dt k) = Some true.
Proof.
  unfold poll_events. induction k as [|k IH]; [reflexivity|].
  cbn [repeat concat app guarded]. exact IH.
Qed.

Lemma guarded_data sck dt ls : guarded true (data_events sck dt ls) = Some true.
Proof.
  induction ls as [|l ls IH]; [reflexivity|].
  cbn [data_events flat_map app guarded]. exact IH.
Qed.

Lemma guarded_pulses sck n : guarded true (pulse_events sck n) = Some true.
Proof.
  unfold pulse_events. induction n as [|n IH]; [reflexivity|].
  cbn [repeat concat app guarded]. exact IH.
Qed.

Lemma guarded_frame B h d i : guarded true (frame_events B h d i) = Some true.
Proof.
  unfold frame_events.
  rewrite guarded_app, guarded_polls. cbv beta iota.
  rewrite guarded_app, guarded_data. cbv beta iota.
  apply guarded_pulses.
Qed.

Lemma guarded_frames B h d n : forall i,
  guarded true (frames_events B h d n i) = Some true.
Proof.
  induction n as [|n IH]; intros i; [reflexivity|].
  cbn [frames_events]. rewrite guarded_app, guarded_frame. apply IH.
Qed.

(** *** One call *)

Lemma clock_level_app sck t evs :
  clock_level sck (t ++ evs) = level_from sck (clock_level sck t) evs.
Proof. apply level_from_app. Qed.

Lemma step_ok_refl s : sound s -> step_ok s s [].
Proof.
  intros [Hg Hc]. unfold step_ok, sound. rewrite app_nil_r.
  repeat apply conj; reflexivity || assumption.
Qed.

Lemma step_ok_trans s s' s'' e1 e2 :
  step_ok s s' e1 -> step_ok s' s'' e2 -> step_ok s s'' (e1 ++ e2).
Proof.
  intros (Hl1 & Ht1 & Hd1 & Hc1 & _ & Hg1) (Hl2 & Ht2 & Hd2 & Hc2 & Hs2 & Hg2).
  unfold step_ok.
  split; [congruence|].
  split; [rewrite Ht2, Ht1; now rewrite app_assoc|].
  split; [congruence|]. split; [congruence|]. split; [exact Hs2|].
  rewrite guarded_app, Hg1. exact Hg2.
Qed.

(** Assigning [offset] or [scale] is a step that logs nothing. *)
Lemma step_ok_attr (f : obj -> obj) h w :
  (forall x, dt (f x) = dt x /\ sck (f x) = sck x /\ _gain (f x) = _gain x
             /\ _power_down (f x) = _power_down x) ->
  sound (h, w) -> step_ok (h, w) (f h, w) [].
Proof.
  intros Hf [Hg Hc]. destruct (Hf h) as (Hd & Hk & Hgn & Hp).
  unfold step_ok, sound, idle_level in *. cbn [fst snd] in *.
  rewrite app_nil_r, Hd, Hk, Hgn, Hp. repeat apply conj;
    reflexivity || assumption.
Qed.

Lemma awake_ok B h w :
  sound (h, w) ->
  exists evs, step_ok (h, w) (awake B (h, w)) evs.
Proof.
  intros [Hg Hc]. unfold awake, idle_level in *. cbn [fst snd] in *.
  destruct (_power_down h) eqn:Hpd.
  - exists ([Acquire; Output (sck h) LOW]
            ++ frame_events B h (line w) (reads w) ++ [Release]).
    unfold step_ok, sound, woken_world, idle_level. cbn [fst snd line trace
      set_power_down dt sck _gain _power_down].
    repeat apply conj; try reflexivity; try assumption.
    + rewrite clock_level_app, !level_from_app, level_from_frame.
      reflexivity.
    + cbn [app guarded].
      rewrite guarded_app, guarded_frame. reflexivity.
  - exists []. apply step_ok_refl. split; [assumption|].
    unfold idle_level. cbn [fst snd]. now rewrite Hpd.
Qed.

Lemma sampled_ok B h n w :
  sound (h, w) -> _power_down h = false ->
  step_ok (h, w) (h, sampled B h n w)
    ([Acquire] ++ frames_events B h (line w) n (reads w) ++ [Release]).
Proof.
  intros [Hg Hc] Hpd. unfold step_ok, sound, sampled, idle_level in *.
  cbn [fst snd line trace] in *. rewrite Hpd in *.
  repeat apply conj; try reflexivity; try assumption.
  - rewrite clock_level_app, Hc, !level_from_app.
    change (level_from (sck h) (Some LOW) [Acquire]) with (Some LOW).
    now rewrite level_from_frames.
  - cbn [app guarded]. rewrite guarded_app, guarded_frames. reflexivity.
Qed.

(** Waking, then sampling [n] frames. *)
Lemma wake_sample_ok B n h w :
  sound (h, w) ->
  exists evs,
    step_ok (h, w)
      (fst (awake B (h, w)),
       sampled B (fst (awake B (h, w))) n (snd (awake B (h, w)))) evs.
Proof.
  intros Hs. destruct (awake_ok B h w Hs) as [e1 H1].
  destruct (awake_attrs B h w) as (_ & _ & _ & _ & _ & Hpd).
  destruct (awake B (h, w)) as [h1 w1] eqn:Hw. cbn [fst snd] in *.
  eexists. eapply step_ok_trans; [exact H1|].
  apply sampled_ok; [apply H1|exact Hpd].
Qed.

Lemma step_ok_from (f : obj -> obj) h w s' evs :
  dt (f h) = dt h -> sck (f h) = sck h ->
  step_ok (f h, w) s' evs -> step_ok (h, w) s' evs.
Proof.
  intros Hd Hk (Hl & Ht & Hd' & Hk' & Hs & Hg).
  unfold step_ok in *. cbn [fst snd] in *.
  repeat split; try assumption; try congruence; apply Hs.
Qed.

(** Closes a case of [run_step]: the call ends with outcome [r], and [H]
    is the step it made. *)
Ltac ended r H :=
  exists r; do 2 eexists;
  split; [reflexivity|]; split; [discriminate|exact H].

Lemma run_step B fuel c h w :
  responsive B (line w) -> (B <= fuel)%nat -> sound (h, w) ->
  exists r s' evs,
    run fuel c (h, w) = (r, s') /\ r <> Blocked /\ step_ok (h, w) s' evs.
Proof.
  intros Hr Hf Hs.
  destruct c as [n|rw n| | |v| |v]; cbn [run].
  - (* tare *)
    rewrite bind_eq, (tare_run B fuel Hf h w Hr).
    destruct (wake_sample_ok B (Z.to_nat n) h w Hs) as [evs Hok].
    destruct (rbind _ int) as [e|v].
    + ended (@Raise unit e) Hok.
    + exists (Ok tt). eexists. exists (evs ++ []).
      split; [reflexivity|]. split; [discriminate|].
      eapply step_ok_trans; [exact Hok|].
      apply (step_ok_attr (set_offset v)); [now intros []|apply Hok].
  - (* calibrate *)
    rewrite bind_eq, (calibrate_run B fuel Hf h w Hr).
    destruct (wake_sample_ok B (Z.to_nat n) h w Hs) as [evs Hok].
    destruct (rbind _ _) as [e|q].
    + ended (@Raise unit e) Hok.
    + exists (Ok tt). eexists. exists (evs ++ []).
      split; [reflexivity|]. split; [discriminate|].
      eapply step_ok_trans; [exact Hok|].
      apply (step_ok_attr (set_scale (PyFloat q))); [now intros []|apply Hok].
  - (* get_weight *)
    rewrite bind_eq, (get_weight_run B fuel Hf h w Hr).
    destruct (wake_sample_ok B 1 h w Hs) as [evs Hok].
    destruct (truediv _ _) as [e|q]; cbn [py_outcome].
    + ended (@Raise unit e) Hok.
    + ended (Ok tt) Hok.
  - (* gain, read *)
    exists (Ok tt), (h, w), []. split; [reflexivity|]. split; [discriminate|].
    now apply step_ok_refl.
  - (* gain, written *)
    destruct (valid_gain v) eqn:Hv.
    + rewrite (gain_setter_run B fuel v h w Hr Hf Hv).
      exists (Ok tt). destruct (v =? _gain h).
      * exists (h, w), []. split; [reflexivity|]. split; [discriminate|].
        now apply step_ok_refl.
      * destruct (wake_sample_ok B 1 (set_gain v h) w) as [evs Hok].
        { destruct Hs as [_ Hc]. split; [exact Hv|exact Hc]. }
        do 2 eexists. split; [reflexivity|]. split; [discriminate|].
        apply (step_ok_from (set_gain v)); [reflexivity|reflexivity|].
        exact Hok.
    + exists (Raise ValueError), (h, w), [].
      unfold gain_setter. rewrite Hv.
      split; [reflexivity|]. split; [discriminate|].
      now apply step_ok_refl.
  - (* power_down, read *)
    exists (Ok tt), (h, w), []. split; [reflexivity|]. split; [discriminate|].
    now apply step_ok_refl.
  - (* power_down, written *)
    exists (Ok tt).
    destruct v, (_power_down h) eqn:Hpd.
    + rewrite power_down_setter_same by congruence.
      exists (h, w), []. split; [reflexivity|]. split; [discriminate|].
      now apply step_ok_refl.
    + rewrite power_down_setter_sleep by assumption.
      do 2 eexists. split; [reflexivity|]. split; [discriminate|].
      destruct Hs as [Hg Hc].
      unfold step_ok, sound, log, idle_level. cbn [fst snd line trace
        set_power_down dt sck _gain _power_down].
      repeat apply conj; try reflexivity; try assumption.
      rewrite clock_level_app. unfold level_from.
      cbn [fold_left drives]. now rewrite Z.eqb_refl.
    + rewrite (power_down_setter_wake B) by assumption.
      destruct (awake_ok B h w Hs) as [evs Hok].
      unfold awake in Hok. cbn [fst snd] in Hok. rewrite Hpd in Hok.
      do 2 eexists. split; [reflexivity|]. split; [discriminate|exact Hok].
    + rewrite power_down_setter_same by congruence.
      exists (h, w), []. split; [reflexivity|]. split; [discriminate|].
      now apply step_ok_refl.
Qed.

Lemma run_all_sound B fuel cs : forall h w,
  responsive B (line w) -> (B <= fuel)%nat -> sound (h, w) ->
  exists s' evs,
    run_all fuel cs (h, w) = (Ok tt, s') /\ step_ok (h, w) s' evs.
Proof.
  induction cs as [|c cs IH]; intros h w Hr Hf Hs.
  - exists (h, w), []. split; [reflexivity|now apply step_ok_refl].
  - cbn [run_all].
    destruct (run_step B fuel c h w Hr Hf Hs)
      as (r & [h1 w1] & e1 & Hrun & Hnb & H1).
    rewrite Hrun.
    destruct (IH h1 w1) as (s2 & e2 & Hrest & H2).
    + destruct H1 as (Hl & _). cbn [snd] in Hl. now rewrite Hl.
    + exact Hf.
    + apply H1.
    + exists s2, (e1 ++ e2). split.
      * destruct r; [exact Hrest|exact Hrest|contradiction].
      * eapply step_ok_trans; eassumption.
Qed.

(** A whole session: construction, then any calls. *)
Lemma session_sound B fuel dt_pin sck_pin g cs h w :
  responsive B (line w) -> (B <= fuel)%nat -> valid_gain g = true ->
  let hx := mkObj dt_pin sck_pin g 0 (PyInt 1) false in
  let built :=
    (hx, mkWorld (line w) (frame_next B (line w) (reads w))
           (trace w ++ [Setmode_BCM; Setup_in dt_pin; Setup_out sck_pin LOW]
                    ++ frame_events B hx (line w) (reads w))) in
  exists s' evs,
    session fuel dt_pin sck_pin g cs (h, w) = (Ok tt, s')
    /\ step_ok built s' evs.
Proof.
  intros Hr Hf Hg hx built.
  unfold session. rewrite bind_eq, (init_run B) by assumption.
  fold hx. fold built.
  apply (run_all_sound B); [assumption|assumption|].
  split; [exact Hg|]. unfold built. cbn [fst snd trace sck].
  rewrite clock_level_app, level_from_app.
  apply (level_from_frame B hx).
Qed.

(** X6. On a responsive chip no call ever blocks: a session (construction
    with a valid gain, then any sequence of calls, exceptions being caught)
    runs to its end.  The instance then still has the pins it was built
    with and a gain in [{128, 64, 32}], and [cleanup] releases exactly
    those two pins. *)
Theorem session_keeps_pins_and_gain (B fuel : nat) (dt_pin sck_pin g : Z)
    (cs : list call) (h : obj) (w : world)
    (Hline : responsive B (line w)) (Hfuel : (B <= fuel)%nat)
    (Hg : valid_gain g = true) :
  let s' := snd (session fuel dt_pin sck_pin g cs (h, w)) in
  fst (session fuel dt_pin sck_pin g cs (h, w)) = Ok tt
  /\ dt (fst s') = dt_pin
  /\ sck (fst s') = sck_pin
  /\ valid_gain (_gain (fst s')) = true
  /\ (session fuel dt_pin sck_pin g cs ;; cleanup) (h, w) =
     (Ok tt, (fst s', log [Cleanup [dt_pin; sck_pin]] (snd s'))).
Proof.
  intros s'.
  destruct (session_sound B fuel dt_pin sck_pin g cs h w Hline Hfuel Hg)
    as (s1 & evs & Hrun & Hok).
  unfold s'. rewrite bind_eq, Hrun. cbn [fst snd].
  destruct Hok as (_ & _ & Hdt & Hsck & [Hgain _] & _). cbn [fst dt sck] in *.
  repeat apply conj; try assumption; try reflexivity.
  unfold cleanup, attr, emit. rewrite !bind_eq. cbn [fst snd].
  now rewrite Hdt, Hsck.
Qed.

Lemma session_keeps_pins_and_gain_witness :
  responsive 27 (line (Bench.chip 1 [100; 101; 102; 103; 104; 105; 106]))
  /\ (27 <= 27)%nat
  /\ valid_gain 128 = true
  /\ fst (session 27 5 6 128
            [Tare 3; SetPowerDown true; GetWeight; SetGain 100; SetGain 32;
             Calibrate (PyFloat 0) 1; GetGain]
            (Bench.hx, Bench.chip 1 [100; 101; 102; 103; 104; 105; 106]))
     = Ok tt
  /\ _gain (fst (snd (session 27 5 6 128
            [Tare 3; SetPowerDown true; GetWeight; SetGain 100; SetGain 32;
             Calibrate (PyFloat 0) 1; GetGain]
            (Bench.hx, Bench.chip 1 [100; 101; 102; 103; 104; 105; 106]))))
     = 32.
Proof.
  assert (Hr : responsive 27
                 (line (Bench.chip 1 [100; 101; 102; 103; 104; 105; 106])))
    by scripted.
  assert (Hf : (27 <= 27)%nat) by lia.
  assert (Hg : valid_gain 128 = true) by reflexivity.
  split; [exact Hr|split; [exact Hf|split; [exact Hg|]]].
  destruct (session_keeps_pins_and_gain 27 27 5 6 128
              [Tare 3; SetPowerDown true; GetWeight; SetGain 100; SetGain 32;
               Calibrate (PyFloat 0) 1; GetGain]
              Bench.hx _ Hr Hf Hg) as (Hok & _).
  split; [exact Hok|]. vm_compute. reflexivity.
Defined.

(** X7. Between calls the clock line rests where the power state says: at
    the end of any session on a responsive chip, the level last driven on
    the clock pin is high if the instance is powered down and low
    otherwise. *)
Theorem session_clock_follows_power (B fuel : nat) (dt_pin sck_pin g : Z)
    (cs : list call) (h : obj) (w : world)
    (Hline : responsive B (line w)) (Hfuel : (B <= fuel)%nat)
    (Hg : valid_gain g = true) :
  let s' := snd (session fuel dt_pin sck_pin g cs (h, w)) in
  clock_level sck_pin (trace (snd s')) =
  Some (if _power_down (fst s') then HIGH else LOW).
Proof.
  intros s'.
  destruct (session_sound B fuel dt_pin sck_pin g cs h w Hline Hfuel Hg)
    as (s1 & evs & Hrun & Hok).
  unfold s'. rewrite Hrun. cbn [snd].
  destruct Hok as (_ & _ & _ & Hsck & [_ Hclock] & _). cbn [fst sck] in Hsck.
  now rewrite <- Hsck.
Qed.

Lemma session_clock_follows_power_witness :
  responsive 27 (line (Bench.chip 1 [100; 101; 102]))
  /\ (27 <= 27)%nat
  /\ valid_gain 64 = true
  /\ clock_level 6
       (trace (snd (snd (session 27 5 6 64
                           [GetWeight; SetPowerDown true; GetPowerDown]
                           (Bench.hx, Bench.chip 1 [100; 101; 102])))))
     = Some HIGH.
Proof.
  assert (Hr : responsive 27 (line (Bench.chip 1 [100; 101; 102])))
    by scripted.
  assert (Hf : (27 <= 27)%nat) by lia.
  assert (Hg : valid_gain 64 = true) by reflexivity.
  split; [exact Hr|split; [exact Hf|split; [exact Hg|]]].
  rewrite (session_clock_follows_power 27 27 5 6 64
             [GetWeight; SetPowerDown true; GetPowerDown]
             Bench.hx _ Hr Hf Hg).
  vm_compute. reflexivity.
Defined.

(** X8. After construction, every call touches the lines only while it
    holds the lock, never acquires the lock while holding it, and has
    released it when it returns or raises: the events a session logs after
    the constructor's own pass the [guarded] check and leave the lock
    free. *)
Theorem session_lock_discipline (B fuel : nat) (dt_pin sck_pin g : Z)
    (cs : list call) (h : obj) (w : world)
    (Hline : responsive B (line w)) (Hfuel : (B <= fuel)%nat)
    (Hg : valid_gain g = true) :
  let s' := snd (session fuel dt_pin sck_pin g cs (h, w)) in
  let hx := mkObj dt_pin sck_pin g 0 (PyInt 1) false in
  exists evs,
    trace (snd s') =
      (trace w ++ [Setmode_BCM; Setup_in dt_pin; Setup_out sck_pin LOW]
               ++ frame_events B hx (line w) (reads w))
      ++ evs
    /\ guarded false evs = Some false.
Proof.
  intros s' hx.
  destruct (session_sound B fuel dt_pin sck_pin g cs h w Hline Hfuel Hg)
    as (s1 & evs & Hrun & Hok).
  unfold s'. rewrite Hrun. cbn [snd].
  destruct Hok as (_ & Htrace & _ & _ & _ & Hguard). cbn [snd trace] in Htrace.
  exists evs. split; assumption.
Qed.

Lemma session_lock_discipline_witness :
  responsive 27 (line (Bench.chip 1 [100; 101; 102]))
  /\ (27 <= 27)%nat
  /\ valid_gain 64 = true
  /\ exists evs,
       trace (snd (snd (session 27 5 6 64
                          [SetPowerDown true; Tare 0; GetWeight]
                          (Bench.hx, Bench.chip 1 [100; 101; 102]))))
       = ([] ++ [Setmode_BCM; Setup_in 5; Setup_out 6 LOW]
             ++ frame_events 27 (mkObj 5 6 64 0 (PyInt 1) false)
                  (line (Bench.chip 1 [100; 101; 102])) 0)
         ++ evs
       /\ guarded false evs = Some false.
Proof.
  assert (Hr : responsive 27 (line (Bench.chip 1 [100; 101; 102])))
    by scripted.
  assert (Hf : (27 <= 27)%nat) by lia.
  assert (Hg : valid_gain 64 = true) by reflexivity.
  split; [exact Hr|split; [exact Hf|split; [exact Hg|]]].
  exact (session_lock_discipline 27 27 5 6 64
           [SetPowerDown true; Tare 0; GetWeight]
           Bench.hx (Bench.chip 1 [100; 101; 102]) Hr Hf Hg).
Defined.

(* ================================================================= *)
(** ** Further properties of the pipeline *)

(** X9. Powering down and then asking for a weight: [get_weight] first
    wakes the chip, which reads and discards exactly one frame, and the
    weight returned comes from the frame after it; the instance ends
    active, with the attributes it had. *)
Theorem wake_before_sample (B fuel : nat) (h : obj) (w : world)
    (Hline : responsive B (line w)) (Hfuel : (B <= fuel)%nat)
    (Hpd : _power_down h = false) :
  let i2 := frame_next B (line w) (reads w) in
  let r2 := frame_value B (line w) i2 in
  (power_down_setter fuel true ;; get_weight fuel) (h, w) =
  (py_outcome (truediv (PyInt (r2 - offset h)) (scale h)),
   (h, mkWorld (line w) (frame_next B (line w) i2)
         (trace w
          ++ [Acquire; Output (sck h) LOW; Output (sck h) HIGH; Sleep 60;
              Release]
          ++ [Acquire; Output (sck h) LOW]
          ++ frame_events B h (line w) (reads w)
          ++ [Release]
          ++ [Acquire]
          ++ frame_events B h (line w) i2
          ++ [Release]))).
Proof.
  intros i2 r2.
  rewrite bind_eq, power_down_setter_sleep by assumption.
  rewrite (get_weight_run B fuel Hfuel) by exact Hline.
  assert (Hh : set_power_down false (set_power_down true h) = h).
  { unfold set_power_down. cbn [dt sck _gain offset scale _power_down].
    rewrite <- Hpd. now destruct h. }
  unfold awake. cbn [fst snd set_power_down _power_down offset scale].
  fold (set_power_down true h).
  fold (set_power_down false (set_power_down true h)).
  rewrite Hh.
  unfold sampled, woken_world, log.
  cbn [line reads trace frames_events frames_next].
  fold i2. fold r2.
  change (frame_events B (set_power_down true h) (line w) (reads w))
    with (frame_events B h (line w) (reads w)).
  change (sck (set_power_down true h)) with (sck h).
  rewrite app_nil_r, <- !app_assoc. reflexivity.
Qed.

Lemma wake_before_sample_witness :
  responsive 27 (line (Bench.chip 1 [500; 111]))
  /\ (27 <= 27)%nat
  /\ _power_down (set_scale (PyFloat 2) (set_offset 11 Bench.hx)) = false
  /\ fst ((power_down_setter 27 true ;; get_weight 27)
            (set_scale (PyFloat 2) (set_offset 11 Bench.hx),
             Bench.chip 1 [500; 111]))
     = Ok 50%float.
Proof.
  assert (Hr : responsive 27 (line (Bench.chip 1 [500; 111]))) by scripted.
  assert (Hf : (27 <= 27)%nat) by lia.
  assert (Hpd : _power_down (set_scale (PyFloat 2) (set_offset 11 Bench.hx))
                = false) by reflexivity.
  split; [exact Hr|split; [exact Hf|split; [exact Hpd|]]].
  rewrite (wake_before_sample 27 27 _ _ Hr Hf Hpd).
  vm_compute. reflexivity.
Defined.

(** *** The integer median lies among the data *)

Lemma quot2_between (lo hi a b : Z) :
  lo <= a <= hi -> lo <= b <= hi -> lo <= Z.quot (a + b) 2 <= hi.
Proof.
  intros Ha Hb.
  pose proof (Z.quot_rem' (a + b) 2) as Hqr.
  destruct (Z.le_gt_cases 0 (a + b)) as [Hpos|Hneg].
  - pose proof (Z.rem_bound_pos (a + b) 2 Hpos ltac:(lia)). lia.
  - pose proof (Z.rem_bound_pos (- (a + b)) 2 ltac:(lia) ltac:(lia)) as Hr.
    rewrite Z.rem_opp_l in Hr by lia. lia.
Qed.

Lemma sorted_nth_between (lo hi : Z) l i :
  Forall (fun v => lo <= v <= hi) l -> (i < length l)%nat ->
  lo <= nth i (sorted l) 0 <= hi.
Proof.
  intros Hl Hi.
  assert (Hin : In (nth i (sorted l) 0) l).
  { eapply Permutation_in; [apply Permutation_sym, sorted_perm|].
    apply nth_In. now rewrite sorted_length. }
  rewrite Forall_forall in Hl. now apply Hl.
Qed.

Lemma int_median_between (lo hi : Z) l :
  l <> [] -> Forall (fun v => lo <= v <= hi) l ->
  lo <= int_median l <= hi.
Proof.
  intros Hne Hl. unfold int_median. rewrite sorted_length.
  assert (Hlen : (0 < length l)%nat) by (destruct l; [congruence|cbn; lia]).
  assert (Hhalf : (length l / 2 < length l)%nat)
    by (apply Nat.div_lt; lia).
  destruct (Nat.odd (length l)).
  - now apply sorted_nth_between.
  - apply quot2_between; apply sorted_nth_between; assumption || lia.
Qed.

(** X10. The offset [tare] sets lies between the smallest and the largest
    of the frames it read (no sample, however wild, can drag it outside),
    so it is a 24-bit signed value like them. *)
Theorem tare_offset_between (B fuel : nat) (n lo hi : Z) (h : obj) (w : world)
    (Hline : responsive B (line w)) (Hfuel : (B <= fuel)%nat) (Hn : 0 < n) :
  let s1 := awake B (h, w) in
  let vs := frames_values B (line w) (Z.to_nat n) (reads (snd s1)) in
  let o := offset (fst (snd (tare fuel n (h, w)))) in
  fst (tare fuel n (h, w)) = Ok o
  /\ (Forall (fun v => lo <= v <= hi) vs -> lo <= o <= hi)
  /\ - 2 ^ 23 <= o < 2 ^ 23.
Proof.
  intros s1 vs o.
  assert (Hlen : length vs = Z.to_nat n) by apply frames_values_length.
  assert (Hne : vs <> []) by (destruct vs; [simpl in Hlen; lia|discriminate]).
  assert (Hrange : Forall (fun v => - 2 ^ 23 <= v <= 2 ^ 23 - 1) vs).
  { eapply Forall_impl; [|apply frames_values_range].
    cbv beta. intros v Hv. lia. }
  assert (Hmed : rbind (median vs) int = inr (int_median vs)).
  { apply (median_int (2 ^ 23)); [exact Hne|lia|].
    eapply Forall_impl; [|exact Hrange]. cbv beta. intros v Hv. lia. }
  assert (Ho : o = int_median vs /\ fst (tare fuel n (h, w)) = Ok o).
  { unfold o. rewrite (tare_run B fuel Hfuel h w Hline n).
    fold s1. fold vs. rewrite Hmed. split; reflexivity. }
  destruct Ho as [Ho Hrun]. split; [|split].
  - exact Hrun.
  - intros Hb. rewrite Ho. now apply int_median_between.
  - rewrite Ho.
    pose proof (int_median_between _ _ vs Hne Hrange). lia.
Qed.

Lemma tare_offset_between_witness :
  responsive 27 (line (Bench.chip 1 [10; 12; 11; 1000]))
  /\ (27 <= 27)%nat
  /\ 0 < 4
  /\ fst (tare 27 4 (Bench.hx, Bench.chip 1 [10; 12; 11; 1000])) = Ok 11
  /\ 10 <= offset (fst (snd (tare 27 4
                               (Bench.hx, Bench.chip 1 [10; 12; 11; 1000]))))
        <= 1000.
Proof.
  assert (Hr : responsive 27 (line (Bench.chip 1 [10; 12; 11; 1000])))
    by scripted.
  assert (Hf : (27 <= 27)%nat) by lia.
  assert (Hn : 0 < 4) by lia.
  split; [exact Hr|split; [exact Hf|split; [exact Hn|]]].
  destruct (tare_offset_between 27 27 4 10 1000 Bench.hx _ Hr Hf Hn)
    as (Hrun & Hbetween & _).
  split.
  - rewrite Hrun. vm_compute. reflexivity.
  - apply Hbetween. vm_compute.
    repeat constructor; discriminate.
Defined.

(** X11. With a zero scale ([0] or [0.0], of either sign), [get_weight]
    still reads its frame and then raises [ZeroDivisionError]; the lock,
    inside which the division is made, is released all the same, and no
    attribute changes. *)
Theorem get_weight_zero_scale (B fuel : nat) (h : obj) (w : world)
    (Hline : responsive B (line w)) (Hfuel : (B <= fuel)%nat)
    (Hs : is_zero (scale h) = true) (Ho : Z.abs (offset h) < 2 ^ 51) :
  let s1 := awake B (h, w) in
  get_weight fuel (h, w) =
    (Raise ZeroDivisionError,
     (fst s1,
      mkWorld (line w) (frame_next B (line w) (reads (snd s1)))
        (trace (snd s1) ++ [Acquire]
           ++ frame_events B h (line w) (reads (snd s1))
           ++ [Release])))
  /\ offset (fst s1) = offset h
  /\ scale (fst s1) = scale h
  /\ _gain (fst s1) = _gain h.
Proof.
  intros s1.
  destruct (awake_attrs B h w) as (Hdt & Hsck & Hgain & Hoff & Hscale & _).
  fold s1 in Hdt, Hsck, Hgain, Hoff, Hscale.
  repeat apply conj; try assumption.
  rewrite (get_weight_run B fuel Hfuel h w Hline). fold s1.
  destruct (truediv_by_zero
              (PyInt (frame_value B (line w) (reads (snd s1)) - offset h))
              (scale h) Hs) as [_ Hzd].
  rewrite Hzd.
  - cbn [py_outcome]. unfold sampled. cbn [frames_events frames_next].
    unfold frame_events. rewrite Hdt, Hsck, Hgain, app_nil_r.
    pose proof (awake_line B h w) as Hl. fold s1 in Hl. now rewrite Hl.
  - cbn [moderate].
    pose proof (frame_value_range B (line w) (reads (snd s1))). lia.
Qed.

Lemma get_weight_zero_scale_witness :
  responsive 27 (line (Bench.chip 1 [111]))
  /\ (27 <= 27)%nat
  /\ is_zero (scale (set_scale (PyFloat (-0)) Bench.hx)) = true
  /\ Z.abs (offset (set_scale (PyFloat (-0)) Bench.hx)) < 2 ^ 51
  /\ fst (get_weight 27 (set_scale (PyFloat (-0)) Bench.hx,
                         Bench.chip 1 [111]))
     = Raise ZeroDivisionError
  /\ guarded false
       (trace (snd (snd (get_weight 27 (set_scale (PyFloat (-0)) Bench.hx,
                                        Bench.chip 1 [111])))))
     = Some false.
Proof.
  assert (Hr : responsive 27 (line (Bench.chip 1 [111]))) by scripted.
  assert (Hf : (27 <= 27)%nat) by lia.
  assert (Hs : is_zero (scale (set_scale (PyFloat (-0)) Bench.hx)) = true)
    by reflexivity.
  assert (Ho : Z.abs (offset (set_scale (PyFloat (-0)) Bench.hx)) < 2 ^ 51)
    by reflexivity.
  split; [exact Hr|split; [exact Hf|split; [exact Hs|split; [exact Ho|]]]].
  destruct (get_weight_zero_scale 27 27 _ _ Hr Hf Hs Ho) as (Hrun & _).
  rewrite Hrun. split; [reflexivity|]. vm_compute. reflexivity.
Defined.

(** X12. A negative sample count is an empty range: [tare] and [calibrate]
    then read no frame under the lock and raise [StatisticsError], as for
    a count of zero, leaving offset and scale as they were. *)
Theorem negative_samples (B fuel : nat) (rw : num) (n : Z)
    (h : obj) (w : world)
    (Hn : n < 0)
    (Hchip : _power_down h = true ->
             responsive B (line w) /\ (B <= fuel)%nat) :
  let s1 := awake B (h, w) in
  let w2 := mkWorld (line w) (reads (snd s1))
              (trace (snd s1) ++ [Acquire; Release]) in
  tare fuel n (h, w) = (Raise StatisticsError, (fst s1, w2))
  /\ calibrate fuel rw n (h, w) = (Raise StatisticsError, (fst s1, w2))
  /\ offset (fst s1) = offset h
  /\ scale (fst s1) = scale h.
Proof.
  intros s1 w2.
  assert (Hwake : auto_wake fuel (h, w) = (Ok tt, (fst s1, snd s1))).
  { unfold auto_wake, attr. rewrite bind_eq. cbn [fst].
    unfold s1, awake. cbn [fst snd].
    destruct (_power_down h) eqn:Hpd; [|reflexivity].
    destruct (Hchip eq_refl) as [Hr Hf].
    now apply (power_down_setter_wake B). }
  assert (Hw2 : forall h' : obj,
            (h', log [Release] (log [Acquire] (snd s1))) = (h', w2)).
  { intros h'. unfold w2, log. cbn [line reads trace].
    unfold s1. rewrite awake_line, <- app_assoc. reflexivity. }
  assert (Hnone : Z.to_nat n = 0%nat) by lia.
  destruct (awake_attrs B h w) as (_ & _ & _ & Hoff & Hscale & _).
  fold s1 in Hoff, Hscale.
  repeat apply conj; try assumption.
  - unfold tare. rewrite Hnone, bind_eq, Hwake.
    unfold with_lock. cbn. now rewrite Hw2.
  - unfold calibrate. rewrite Hnone, bind_eq, Hwake.
    unfold with_lock. cbn. now rewrite Hw2.
Qed.

Lemma negative_samples_witness :
  -3 < 0
  /\ (_power_down (set_power_down true Bench.hx) = true ->
      responsive 27 (line (Bench.chip 1 [7])) /\ (27 <= 27)%nat)
  /\ fst (tare 27 (-3) (set_power_down true Bench.hx, Bench.chip 1 [7]))
     = Raise StatisticsError
  /\ fst (calibrate 27 (PyFloat 100) (-3)
            (set_power_down true Bench.hx, Bench.chip 1 [7]))
     = Raise StatisticsError.
Proof.
  assert (Hr : responsive 27 (line (Bench.chip 1 [7]))) by scripted.
  assert (Hf : (27 <= 27)%nat) by lia.
  assert (Hn : -3 < 0) by lia.
  split; [exact Hn|]. split; [intros _; split; [exact Hr|exact Hf]|].
  destruct (negative_samples 27 27 (PyFloat 100) (-3)
              (set_power_down true Bench.hx) (Bench.chip 1 [7])
              Hn (fun _ => conj Hr Hf)) as (Htare & Hcal & _).
  rewrite Htare, Hcal. split; reflexivity.
Defined.

(** *** Dividing by one *)

Lemma SFdiv_one s (m : positive) e :
  digits2_pos m = 53%positive -> -1000 <= e <= 900 ->
  SFdiv prec emax (S754_finite s m e)
                  (S754_finite false 4503599627370496 (-52))
  = S754_finite s m e.
Proof.
  intros Hd He. unfold SFdiv, SFdiv_core_binary.
  cbn [Zdigits2]. rewrite Hd.
  change (Z.pos (digits2_pos 4503599627370496)) with 53.
  assert (He' : Z.min (fexp prec emax (53 + e - (53 + -52))) (e - -52)
                = e - 1).
  { unfold fexp, SpecFloat.emin, prec, emax. lia. }
  rewrite He'.
  replace (e - -52 - (e - 1)) with 53 by lia.
  rewrite Z.shiftl_mul_pow2 by lia.
  pose proof (Z_div_mod (Z.pos m * 2 ^ 53) 4503599627370496 eq_refl) as Hdm.
  destruct (Z.div_eucl (Z.pos m * 2 ^ 53) 4503599627370496) as [q r].
  assert (Hq : q = Z.pos (xO m) /\ r = 0).
  { change (2 ^ 53) with (2 * 4503599627370496) in Hdm. lia. }
  destruct Hq as [-> ->].
  change (new_location 4503599627370496 0) with loc_Exact.
  rewrite xorb_false_r.
  rewrite binary_round_aux_even by (assumption || lia).
  f_equal. lia.
Qed.

Lemma Z2float_div_one (z : Z) :
  Z.abs z < 2 ^ 52 -> (Z2float z / Z2float 1)%float = Z2float z.
Proof.
  intros Hz. apply Prim2SF_inj. rewrite div_spec.
  change (Prim2SF (Z2float 1))
    with (S754_finite false 4503599627370496 (-52)).
  unfold Z2float, SF64div.
  destruct z as [|p|p]; cbn [binary_normalize].
  - reflexivity.
  - destruct (Prim2SF_Z2float_pos false p) as (m & Hd & Hm & ->); [lia|].
    pose proof (digits2_pos_le p 52 ltac:(lia) ltac:(lia)) as Hle.
    apply SFdiv_one; [assumption|lia].
  - destruct (Prim2SF_Z2float_pos true p) as (m & Hd & Hm & ->); [lia|].
    pose proof (digits2_pos_le p 52 ltac:(lia) ltac:(lia)) as Hle.
    apply SFdiv_one; [assumption|lia].
Qed.

(** X13. With the scale the constructor sets ([1]), [get_weight] returns
    the offset-corrected raw reading itself, converted to a float without
    rounding. *)
Theorem get_weight_unit_scale (B fuel : nat) (h : obj) (w : world)
    (Hline : responsive B (line w)) (Hfuel : (B <= fuel)%nat)
    (Hs : scale h = PyInt 1) (Ho : Z.abs (offset h) < 2 ^ 51) :
  let r := frame_value B (line w) (reads (snd (awake B (h, w)))) in
  fst (get_weight fuel (h, w)) = Ok (Z2float (r - offset h)).
Proof.
  intros r.
  pose proof (frame_value_range B (line w) (reads (snd (awake B (h, w)))))
    as Hr. fold r in Hr.
  rewrite (get_weight_run B fuel Hfuel h w Hline). cbn [fst]. fold r.
  rewrite Hs, truediv_moderate; cbn [moderate is_zero to_float];
    try reflexivity; try lia.
  cbn [py_outcome]. f_equal. apply Z2float_div_one. lia.
Qed.

Lemma get_weight_unit_scale_witness :
  responsive 27 (line (Bench.chip 1 [(-5) mod 2 ^ 24]))
  /\ (27 <= 27)%nat
  /\ scale (set_offset 11 Bench.hx) = PyInt 1
  /\ Z.abs (offset (set_offset 11 Bench.hx)) < 2 ^ 51
  /\ fst (get_weight 27 (set_offset 11 Bench.hx,
                         Bench.chip 1 [(-5) mod 2 ^ 24]))
     = Ok (-16)%float.
Proof.
  assert (Hr : responsive 27 (line (Bench.chip 1 [(-5) mod 2 ^ 24])))
    by scripted.
  assert (Hf : (27 <= 27)%nat) by lia.
  assert (Hs : scale (set_offset 11 Bench.hx) = PyInt 1) by reflexivity.
  assert (Ho : Z.abs (offset (set_offset 11 Bench.hx)) < 2 ^ 51)
    by reflexivity.
  split; [exact Hr|split; [exact Hf|split; [exact Hs|split; [exact Ho|]]]].
  rewrite (get_weight_unit_scale 27 27 _ _ Hr Hf Hs Ho).
  vm_compute. reflexivity.
Defined.

(** X14. Setting the power-down state twice to the same value is the same
    as setting it once: the second call finds the flag already there and
    issues nothing, so the power-down pulse (or the wake-up read) is never
    repeated. *)
Theorem power_down_setter_twice (B fuel : nat) (v : bool)
    (h : obj) (w : world)
    (Hchip : v = false -> _power_down h = true ->
             responsive B (line w) /\ (B <= fuel)%nat) :
  (power_down_setter fuel v ;; power_down_setter fuel v) (h, w)
  = power_down_setter fuel v (h, w).
Proof.
  rewrite bind_eq.
  destruct v, (_power_down h) eqn:Hpd.
  - rewrite power_down_setter_same by congruence.
    now rewrite power_down_setter_same by congruence.
  - rewrite power_down_setter_sleep by assumption.
    now rewrite power_down_setter_same by reflexivity.
  - destruct (Hchip eq_refl eq_refl) as [Hr Hf].
    rewrite (power_down_setter_wake B) by assumption.
    now rewrite power_down_setter_same by reflexivity.
  - rewrite power_down_setter_same by congruence.
    now rewrite power_down_setter_same by congruence.
Qed.

Lemma power_down_setter_twice_witness :
  (false = false -> _power_down (set_power_down true Bench.hx) = true ->
   responsive 27 (line (Bench.chip 1 [7])) /\ (27 <= 27)%nat)
  /\ rising_edges 6
       (trace (snd (snd ((power_down_setter 27 false ;;
                          power_down_setter 27 false)
                           (set_power_down true Bench.hx,
                            Bench.chip 1 [7])))))
     = 25%nat.
Proof.
  assert (Hr : responsive 27 (line (Bench.chip 1 [7]))) by scripted.
  assert (Hf : (27 <= 27)%nat) by lia.
  split; [intros _ _; split; [exact Hr|exact Hf]|].
  rewrite (power_down_setter_twice 27 27 false (set_power_down true Bench.hx)
             (Bench.chip 1 [7]) (fun _ _ => conj Hr Hf)).
  vm_compute. reflexivity.
Defined.
